(** * Kakona: postal-code map plotter (src/main.ts)

    A shallow embedding of the [Kakona] class: the geocode resolver
    ([fetchZipcodeGeometry], [fetchFromNominatim]), the geometry
    approximator ([createApproximatePolygon]), the batch plotter
    ([plotAllZipcodes]) and the search controller ([searchZipcode]).

    Numbers.  A JavaScript number is modelled by [jsnum]: the IEEE special
    values NaN and the two infinities, and finite values carried as exact
    reals.  Arithmetic on finite values is exact (no rounding, no overflow,
    no signed zero); the special values follow IEEE-754.

    Strings.  A JavaScript string is a Rocq [string]; each character
    stands for one code unit below 256.

    Values.  The body of a reply is any JSON value ([jsval]); property
    access, truthiness and conversion to a number follow the language,
    and reading a property of [null] or [undefined] throws.

    Effects.  Methods run in a state-and-exception monad over a [World]
    holding the two overlay groups, the two text surfaces and the trace of
    observable events (network requests, timer pauses, console output,
    viewport instructions).  An [await] is sequential composition.

    Collaborators.  The network ([Net]) and the map library ([Host]) are
    parameters.  [L.geoJSON] may throw; the other calls of the map
    library ([fitBounds], [latLngBounds], [bindPopup], [clearLayers]) are
    taken to succeed. *)

From Stdlib Require Import Reals Lra Lia ZArith List String Ascii Bool Arith.
From Stdlib Require Import DecimalString.
Import ListNotations.
Local Open Scope string_scope.

(* ================================================================== *)
(** ** JavaScript numbers *)

Module JSNum.

Local Open Scope R_scope.

Inductive jsnum : Type :=
| JNaN
| JInf (negative : bool)
| JFin (r : R).

Definition is_zero (r : R) : bool := if Req_dec_T r 0 then true else false.
Definition is_neg (r : R) : bool := if Rlt_dec r 0 then true else false.
Definition is_pos (r : R) : bool := if Rlt_dec 0 r then true else false.

(** [a + b] *)
Definition jadd (a b : jsnum) : jsnum :=
  match a, b with
  | JNaN, _ | _, JNaN => JNaN
  | JInf s, JInf t => if Bool.eqb s t then JInf s else JNaN
  | JInf s, JFin _ => JInf s
  | JFin _, JInf t => JInf t
  | JFin x, JFin y => JFin (x + y)
  end.

(** [a * b] *)
Definition jmul (a b : jsnum) : jsnum :=
  match a, b with
  | JNaN, _ | _, JNaN => JNaN
  | JInf s, JInf t => JInf (xorb s t)
  | JInf s, JFin y => if is_zero y then JNaN else JInf (xorb s (is_neg y))
  | JFin x, JInf t => if is_zero x then JNaN else JInf (xorb (is_neg x) t)
  | JFin x, JFin y => JFin (x * y)
  end.

(** [a / b] *)
Definition jdiv (a b : jsnum) : jsnum :=
  match a, b with
  | JNaN, _ | _, JNaN => JNaN
  | JInf _, JInf _ => JNaN
  | JInf s, JFin y => JInf (xorb s (is_neg y))
  | JFin _, JInf _ => JFin 0
  | JFin x, JFin y =>
      if is_zero y then (if is_zero x then JNaN else JInf (is_neg x))
      else JFin (x / y)
  end.

(** [Math.cos], [Math.sin], [Math.PI] *)
Definition Math_cos (a : jsnum) : jsnum :=
  match a with JFin x => JFin (cos x) | _ => JNaN end.
Definition Math_sin (a : jsnum) : jsnum :=
  match a with JFin x => JFin (sin x) | _ => JNaN end.
Definition Math_PI : jsnum := JFin PI.

(** [isNaN] on a number *)
Definition isNaN_num (a : jsnum) : bool :=
  match a with JNaN => true | _ => false end.

(** [isFinite] on a number *)
Definition isFinite_num (a : jsnum) : bool :=
  match a with JFin _ => true | _ => false end.

(** [a > 0] *)
Definition gt_zero (a : jsnum) : bool :=
  match a with
  | JNaN => false
  | JInf s => negb s
  | JFin x => is_pos x
  end.

(** ToBoolean on a number: false for 0 and NaN. *)
Definition truthy_num (a : jsnum) : bool :=
  match a with
  | JNaN => false
  | JInf _ => true
  | JFin x => negb (is_zero x)
  end.

Definition of_nat (n : nat) : jsnum := JFin (INR n).

End JSNum.
Export JSNum.

(* ================================================================== *)
(** ** JavaScript strings: the operations the program uses *)

Module JSString.

Definition chars : string -> list ascii := list_ascii_of_string.
Definition str : list ascii -> string := string_of_list_ascii.

Definition in_range (lo hi : nat) (c : ascii) : bool :=
  let n := nat_of_ascii c in (lo <=? n)%nat && (n <=? hi)%nat.

(** The class [[A-Za-z]]. *)
Definition is_letter (c : ascii) : bool := in_range 65 90 c || in_range 97 122 c.

(** The class [[0-9]]. *)
Definition is_digit (c : ascii) : bool := in_range 48 57 c.

(** White space removed by [String.prototype.trim] and skipped by the
    string-to-number conversion: TAB, LF, VT, FF, CR, SP, NBSP. *)
Definition is_space (c : ascii) : bool :=
  in_range 9 13 c || (nat_of_ascii c =? 32)%nat || (nat_of_ascii c =? 160)%nat.

Fixpoint drop_while (p : ascii -> bool) (l : list ascii) : list ascii :=
  match l with
  | c :: t => if p c then drop_while p t else l
  | [] => []
  end.

Fixpoint take_while (p : ascii -> bool) (l : list ascii) : list ascii :=
  match l with
  | c :: t => if p c then c :: take_while p t else []
  | [] => []
  end.

(** [s.trim()] *)
Definition trim (s : string) : string :=
  str (rev (drop_while is_space (rev (drop_while is_space (chars s))))).

(** [s.replace(/[A-Za-z]/g, '')] *)
Definition remove_letters (s : string) : string :=
  str (filter (fun c => negb (is_letter c)) (chars s)).

(** [s.split(' ')]: the pieces between single spaces; an empty string
    splits into one empty piece. *)
Fixpoint split_chars (sep : ascii) (cur : list ascii) (l : list ascii)
  : list (list ascii) :=
  match l with
  | [] => [rev cur]
  | c :: t =>
      if Ascii.eqb c sep then rev cur :: split_chars sep [] t
      else split_chars sep (c :: cur) t
  end.

Definition split_space (s : string) : list string :=
  map str (split_chars " "%char [] (chars s)).

Fixpoint strip_prefix (p l : list ascii) : option (list ascii) :=
  match p, l with
  | [], _ => Some l
  | a :: p', b :: l' => if Ascii.eqb a b then strip_prefix p' l' else None
  | _ :: _, [] => None
  end.

Definition not_rparen (c : ascii) : bool := negb (Ascii.eqb c ")"%char).

(** One attempt of [/POINT\(([^\)]+)\)/] anchored at the head of [l]: the
    literal [POINT(], a longest non-empty run of characters other than
    [)], then [)].  A shorter run is followed by a character of the run,
    never by [)], so the longest run decides the attempt. *)
Definition point_here (l : list ascii) : option (list ascii) :=
  match strip_prefix (chars "POINT(") l with
  | None => None
  | Some rest =>
      let run := take_while not_rparen rest in
      match run, drop_while not_rparen rest with
      | _ :: _, c :: _ => Some run
      | _, _ => None
      end
  end.

(** The leftmost match of the pattern anywhere in [l]. *)
Fixpoint point_search (l : list ascii) : option (list ascii) :=
  match point_here l with
  | Some g => Some g
  | None => match l with
            | [] => None
            | _ :: t => point_search t
            end
  end.

(** [s.match(/POINT\(([^\)]+)\)/)], reduced to its capture group 1
    ([None] is the [null] of a failed match). *)
Definition match_POINT (s : string) : option string :=
  option_map str (point_search (chars s)).

End JSString.
Export JSString.

(* ================================================================== *)
(** ** [Number(s)]: the string-to-number conversion *)

Module JSToNumber.

Definition digit_of (radix : N) (c : ascii) : option N :=
  let n := N_of_ascii c in
  let d := if in_range 48 57 c then Some (n - 48)%N
           else if in_range 97 102 c then Some (n - 87)%N
           else if in_range 65 70 c then Some (n - 55)%N
           else None in
  match d with
  | Some v => if (v <? radix)%N then Some v else None
  | None => None
  end.

(** The value of a digit string in [radix]; [None] when the string is
    empty or holds a character that is not a digit of the radix. *)
Fixpoint digits_from (radix : N) (acc : N) (l : list ascii) : option N :=
  match l with
  | [] => Some acc
  | c :: t => match digit_of radix c with
              | Some d => digits_from radix (acc * radix + d)%N t
              | None => None
              end
  end.

Definition digits (radix : N) (l : list ascii) : option N :=
  match l with
  | [] => None
  | _ => digits_from radix 0%N l
  end.

(** An optional leading [+] or [-]: the flag is [true] for [-]. *)
Definition split_sign (l : list ascii) : bool * list ascii :=
  match l with
  | "-"%char :: t => (true, t)
  | "+"%char :: t => (false, t)
  | _ => (false, l)
  end.

(** The exponent part: absent, or [e]/[E], an optional sign and at least
    one digit, up to the end of the string. *)
Definition exponent (l : list ascii) : option Z :=
  match l with
  | [] => Some 0%Z
  | c :: t =>
      if Ascii.eqb c "e"%char || Ascii.eqb c "E"%char then
        let '(neg, ds) := split_sign t in
        match digits 10 ds with
        | Some n => Some (if neg then (- Z.of_N n)%Z else Z.of_N n)
        | None => None
        end
      else None
  end.

(** An unsigned decimal literal as mantissa and power of ten:
    [DDD], [DDD.], [DDD.DDD], [.DDD], each with an optional exponent. *)
Definition decimal (l : list ascii) : option (N * Z) :=
  let ip := take_while is_digit l in
  let r1 := drop_while is_digit l in
  let '(fp, r2) :=
    match r1 with
    | "."%char :: t => (take_while is_digit t, drop_while is_digit t)
    | _ => ([], r1)
    end in
  match (ip ++ fp)%list with
  | [] => None
  | ds =>
      match digits_from 10 0%N ds, exponent r2 with
      | Some m, Some e => Some (m, (e - Z.of_nat (List.length fp))%Z)
      | _, _ => None
      end
  end.

(** A non-decimal integer literal: [0x], [0o] or [0b] (either case) and
    at least one digit of the radix. *)
Definition radix_literal (l : list ascii) : option N :=
  match l with
  | "0"%char :: p :: t =>
      if Ascii.eqb p "x"%char || Ascii.eqb p "X"%char then digits 16 t
      else if Ascii.eqb p "o"%char || Ascii.eqb p "O"%char then digits 8 t
      else if Ascii.eqb p "b"%char || Ascii.eqb p "B"%char then digits 2 t
      else None
  | _ => None
  end.

Definition signed (neg : bool) (r : R) : R := if neg then Ropp r else r.

(** [Number(s)] for a string [s]: surrounding white space is skipped; an
    empty string is 0; [Infinity] with an optional sign; a signed decimal
    literal; an unsigned non-decimal literal; anything else is NaN. *)
Definition Number (s : string) : jsnum :=
  let t := chars (trim s) in
  match t with
  | [] => JFin 0
  | _ =>
      match radix_literal t with
      | Some n => JFin (IZR (Z.of_N n))
      | None =>
          let '(neg, u) := split_sign t in
          if list_eq_dec ascii_dec u (chars "Infinity") then JInf neg
          else match decimal u with
               | Some (m, e) =>
                   JFin (signed neg (Rmult (IZR (Z.of_N m)) (powerRZ 10 e)))
               | None => JNaN
               end
      end
  end.

End JSToNumber.
Export JSToNumber.


(* ================================================================== *)
(** ** JavaScript values as they come out of [response.json()] *)

Module JSValue.

#[local] Set Warnings "-register-all".

Inductive jsval : Type :=
| VUndef
| VNull
| VBool (b : bool)
| VNum (n : jsnum)
| VStr (s : string)
| VArr (items : list jsval)
| VObj (fields : list (string * jsval)).

(** What a failing operation throws. *)
Inductive Error : Type :=
| TypeError        (* property of null/undefined, call of a non-function *)
| NetworkError     (* [fetch] rejected *)
| SyntaxError      (* [response.json()] rejected *)
| HostError.       (* the map library rejected its argument *)

Inductive Res (A : Type) : Type :=
| Ok (a : A)
| Throw (e : Error).
Arguments Ok {A} a.
Arguments Throw {A} e.

Fixpoint lookup (k : string) (fields : list (string * jsval)) : jsval :=
  match fields with
  | [] => VUndef
  | (k', v) :: t => if String.eqb k k' then v else lookup k t
  end.

(** ToBoolean *)
Definition truthy (v : jsval) : bool :=
  match v with
  | VUndef | VNull => false
  | VBool b => b
  | VNum n => truthy_num n
  | VStr s => negb (String.eqb s "")
  | VArr _ | VObj _ => true
  end.

Definition nullish (v : jsval) : bool :=
  match v with VUndef | VNull => true | _ => false end.

(** [v.k] for a property name [k] that is not an index. *)
Definition get_prop (v : jsval) (k : string) : Res jsval :=
  match v with
  | VUndef | VNull => Throw TypeError
  | VObj fs => Ok (lookup k fs)
  | VArr l =>
      Ok (if String.eqb k "length" then VNum (of_nat (List.length l)) else VUndef)
  | VStr s =>
      Ok (if String.eqb k "length" then VNum (of_nat (String.length s)) else VUndef)
  | VBool _ | VNum _ => Ok VUndef
  end.

(** The property key of the index [i]. *)
Definition index_key (i : nat) : string :=
  NilEmpty.string_of_uint (Nat.to_uint i).

(** [v[i]] *)
Definition get_index (v : jsval) (i : nat) : Res jsval :=
  match v with
  | VUndef | VNull => Throw TypeError
  | VObj fs => Ok (lookup (index_key i) fs)
  | VArr l => Ok (nth i l VUndef)
  | VStr s => Ok (match String.get i s with
                  | Some c => VStr (String c EmptyString)
                  | None => VUndef
                  end)
  | VBool _ | VNum _ => Ok VUndef
  end.

Definition unwrap (r : Res jsval) : jsval :=
  match r with Ok v => v | Throw _ => VUndef end.

(** [v?.k]: [undefined] on a nullish [v], the property otherwise. *)
Definition opt_prop (v : jsval) (k : string) : jsval :=
  if nullish v then VUndef else unwrap (get_prop v k).

(** [v?.[i]] *)
Definition opt_index (v : jsval) (i : nat) : jsval :=
  if nullish v then VUndef else unwrap (get_index v i).

(** ToNumber.  An array converts through its string form: the empty
    array gives the empty string; a one-element array gives the string of
    its element ([null] and [undefined] print as the empty string, a
    number prints as a literal that reads back as itself); an array of
    two or more elements prints with a comma and is not a number. *)
Fixpoint to_number (v : jsval) : jsnum :=
  match v with
  | VUndef => JNaN
  | VNull => JFin 0
  | VBool b => JFin (if b then 1 else 0)
  | VNum n => n
  | VStr s => Number s
  | VObj _ => JNaN
  | VArr [] => JFin 0
  | VArr [x] =>
      match x with
      | VUndef | VNull => JFin 0
      | VBool _ | VObj _ => JNaN
      | VNum n => n
      | VStr s => Number s
      | VArr _ => to_number x
      end
  | VArr _ => JNaN
  end.

(** [v > 0] *)
Definition js_gt0 (v : jsval) : bool := gt_zero (to_number v).

(** [xs.map(f)] on a value: only an array has a callable [map]. *)
Definition array_items (v : jsval) : Res (list jsval) :=
  match v with
  | VArr l => Ok l
  | VUndef | VNull | VBool _ | VNum _ | VStr _ | VObj _ => Throw TypeError
  end.

End JSValue.
Export JSValue.

(* ================================================================== *)
(** ** The program state, its collaborators and the effect monad *)

(** [interface Config] *)
Record MapConfig : Type := {
  center : jsnum * jsnum;
  zoom : jsnum;
  cfg_fillColor : string;
  cfg_fillOpacity : jsnum;
  strokeColor : string;
  strokeWeight : jsnum
}.

Record Config : Type := {
  zipcodes : list string;
  mapConfig : MapConfig
}.

(** The object literal returned by the resolver:
    [{ type, properties: { postcode }, geometry }]. *)
Record Feature : Type := {
  ftype : string;
  postcode : string;
  geometry : jsval
}.

(** The [style] option handed to [L.geoJSON]. *)
Record Style : Type := {
  fillColor : string;
  fillOpacity : jsnum;
  color : string;
  weight : jsnum
}.

(** A rendered overlay: the feature, its style and its popup text. *)
Record Layer : Type := {
  layer_feature : Feature;
  layer_style : Style;
  layer_popup : option string
}.

Inductive Service : Type := PDOK | Nominatim.

(** What a request ends in: [fetch] rejects, [response.json()] rejects,
    or a parsed body. *)
Inductive Reply : Type :=
| NetFail
| BadJson
| Json (body : jsval).

(** What [fitBounds] is asked to show: the bounds of a group of layers,
    or the bounds of a list of [[lat, lon]] pairs. *)
Inductive Bounds : Type :=
| BoundsOfLayers (ls : list Layer)
| BoundsOfPairs (ps : list (jsval * jsval)).

(** Observable events, in the order they happen. *)
Inductive Event : Type :=
| EFetch (svc : Service) (zipcode : string)
| ESleep (ms : nat)
| EConsoleError (msg : string)
| EConsoleWarn (msg : string)
| EFitBounds (b : Bounds) (padding : nat * nat).

(** What the [searchResult] element shows.  The markup the source writes:
    - [Blank]: the empty text;
    - [Checking]: the text [Checking...];
    - [InvalidInput]: a red span, [Please enter a valid 4-digit zipcode];
    - [Polluted]: a [polluted-text] span, [Your water supply might be polluted!];
    - [Safe]: a [safe-text] span, [Your water supply is safe to drink!];
    - [SearchError]: a red span, [Error searching zipcode]. *)
Inductive ResultText : Type :=
| Blank | Checking | InvalidInput | Polluted | Safe | SearchError.

(** The mutable state of a [Kakona] instance and of the page: the two
    overlay groups, the text of the [status] and [searchResult] elements
    ([None] when the page has no such element) and the event trace. *)
Record World : Type := {
  layerGroup : list Layer;
  searchLayerGroup : list Layer;
  statusDiv : option string;
  resultDiv : option ResultText;
  trace : list Event
}.

(** The network: the reply to a request depends on the service, the
    postal code and the moment of the request (the number of events
    before it), so two requests for one code may differ. *)
Definition Net : Type := nat -> Service -> string -> Reply.

(** The map library: [L.geoJSON] builds a layer or throws. *)
Record Host : Type := {
  geoJSON_accepts : Feature -> bool
}.

Module Eff.

Definition M (A : Type) : Type := World -> Res A * World.

Definition ret {A} (a : A) : M A := fun w => (Ok a, w).

Definition bind {A B} (m : M A) (k : A -> M B) : M B :=
  fun w => match m w with
           | (Ok a, w') => k a w'
           | (Throw e, w') => (Throw e, w')
           end.

Definition throw {A} (e : Error) : M A := fun w => (Throw e, w).

(** [try { m } catch (error) { h error }] *)
Definition try_catch {A} (m : M A) (h : Error -> M A) : M A :=
  fun w => match m w with
           | (Ok a, w') => (Ok a, w')
           | (Throw e, w') => h e w'
           end.

(** A pure step that may throw. *)
Definition lift {A} (r : Res A) : M A := fun w => (r, w).

Definition get : M World := fun w => (Ok w, w).

(** The world after one more event. *)
Definition log (e : Event) (w : World) : World :=
  {| layerGroup := layerGroup w;
     searchLayerGroup := searchLayerGroup w;
     statusDiv := statusDiv w;
     resultDiv := resultDiv w;
     trace := (trace w ++ [e])%list |}.

Definition modify (f : World -> World) : M unit := fun w => (Ok tt, f w).

Definition emit (e : Event) : M unit := modify (log e).

End Eff.
Import Eff.

Declare Scope eff_scope.
Delimit Scope eff_scope with eff.
Notation "x <- m ;; k" := (bind m (fun x => k))
  (at level 61, m at next level, right associativity) : eff_scope.
Notation "m ;;; k" := (bind m (fun _ => k))
  (at level 61, right associativity) : eff_scope.
Local Open Scope eff_scope.

(* ================================================================== *)
(** ** [createApproximatePolygon] *)

Definition radius : jsnum := JFin (2 / 100).
Definition points : nat := 20.

(** [(i / points) * 2 * Math.PI] *)
Definition angle (i : nat) : jsnum :=
  jmul (jmul (jdiv (of_nat i) (of_nat points)) (JFin 2)) Math_PI.

(** [radius * Math.cos(angle)] *)
Definition latOffset (i : nat) : jsnum := jmul radius (Math_cos (angle i)).

(** The divisor [Math.cos(lat * Math.PI / 180)]. *)
Definition lonDivisor (lat : jsnum) : jsnum :=
  Math_cos (jdiv (jmul lat Math_PI) (JFin 180)).

(** [radius * Math.sin(angle) / Math.cos(lat * Math.PI / 180)] *)
Definition lonOffset (lat : jsnum) (i : nat) : jsnum :=
  jdiv (jmul radius (Math_sin (angle i))) (lonDivisor lat).

(** The pair pushed by iteration [i]: [[lat + latOffset, lon + lonOffset]]. *)
Definition vertex (lat lon : jsnum) (i : nat) : jsnum * jsnum :=
  (jadd lat (latOffset i), jadd lon (lonOffset lat i)).

(** The [for] loop: [n] iterations left, counter at [i]. *)
Fixpoint push_vertices (lat lon : jsnum) (n i : nat)
  (coordinates : list (jsnum * jsnum)) : list (jsnum * jsnum) :=
  match n with
  | O => coordinates
  | S n' => push_vertices lat lon n' (S i) (coordinates ++ [vertex lat lon i])%list
  end.

(** [coordinates] after the loop and after [coordinates.push(coordinates[0])];
    on an empty array the pushed element would be [undefined], which the
    pair of NaNs stands for (the loop always runs 20 times). *)
Definition closed_coordinates (lat lon : jsnum) : list (jsnum * jsnum) :=
  let coordinates := push_vertices lat lon points 0 [] in
  (coordinates ++ [nth 0 coordinates (JNaN, JNaN)])%list.

(** [coordinates.map(c => [c[1], c[0]])]: the ring in [[lon, lat]] order. *)
Definition ring (lat lon : jsnum) : list (jsnum * jsnum) :=
  map (fun c => (snd c, fst c)) (closed_coordinates lat lon).

Definition pair_value (p : jsnum * jsnum) : jsval :=
  VArr [VNum (fst p); VNum (snd p)].

Definition createApproximatePolygon (lat lon : jsnum) (zipcode : string)
  : Feature :=
  {| ftype := "Feature";
     postcode := zipcode;
     geometry :=
       VObj [("type", VStr "Polygon");
             ("coordinates", VArr [VArr (map pair_value (ring lat lon))])] |}.

(* ================================================================== *)
(** ** [class Kakona] *)

Section Kakona.

Variable config : Config.
Variable net : Net.
Variable host : Host.

(** [await fetch(url)] followed by [await response.json()]: the request
    is recorded, then the network decides. *)
Definition request (svc : Service) (zipcode : string) : M jsval :=
  fun w =>
    let w' := log (EFetch svc zipcode) w in
    match net (List.length (trace w)) svc zipcode with
    | NetFail => (Throw NetworkError, w')
    | BadJson => (Throw SyntaxError, w')
    | Json body => (Ok body, w')
    end.

Definition console_error (msg : string) : M unit := emit (EConsoleError msg).
Definition console_warn (msg : string) : M unit := emit (EConsoleWarn msg).

(** [isNaN(x)] where [x] is a number or, for a missing array element,
    [undefined] ([None]). *)
Definition isNaN (x : option jsnum) : bool :=
  match x with
  | Some n => isNaN_num n
  | None => true
  end.

(** [fetchFromNominatim] *)
Definition fetchFromNominatim (zipcode : string) : M (option Feature) :=
  try_catch
    (data <- request Nominatim zipcode ;;
     len <- lift (get_prop data "length") ;;
     if js_gt0 len then
       first <- lift (get_index data 0) ;;
       geojson <- lift (get_prop first "geojson") ;;
       if truthy geojson then
         ret (Some {| ftype := "Feature";
                      postcode := zipcode;
                      geometry := geojson |})
       else ret None
     else ret None)
    (fun _ =>
       console_error ("Nominatim error for " ++ zipcode ++ ":") ;;;
       ret None).

(** [doc.centroide_ll.match(/POINT\(([^\)]+)\)/)]: only a string has a
    callable [match]. *)
Definition centroid_match (c : jsval) : Res (option string) :=
  match c with
  | VStr s => Ok (match_POINT s)
  | VUndef | VNull | VBool _ | VNum _ | VArr _ | VObj _ => Throw TypeError
  end.

(** The primary step, lines 56-71: [Some] is the feature returned from
    inside the nested conditions, [None] is falling out of them. *)
Definition fromCentroid (data : jsval) (zipcode : string)
  : M (option Feature) :=
  response <- lift (get_prop data "response") ;;
  if js_gt0 (opt_prop (opt_prop response "docs") "length") then
    docs <- lift (get_prop response "docs") ;;
    doc <- lift (get_index docs 0) ;;
    centroide_ll <- lift (get_prop doc "centroide_ll") ;;
    if truthy centroide_ll then
      coordinateMatch <- lift (centroid_match centroide_ll) ;;
      match coordinateMatch with
      | Some group =>
          let nums := map Number (split_space group) in
          let lon := nth_error nums 0 in
          let lat := nth_error nums 1 in
          if negb (isNaN lat) && negb (isNaN lon) then
            match lat, lon with
            | Some la, Some lo =>
                ret (Some (createApproximatePolygon la lo zipcode))
            | _, _ => ret None
            end
          else ret None
      | None => ret None
      end
    else ret None
  else ret None.

(** [fetchZipcodeGeometry] *)
Definition fetchZipcodeGeometry (zipcode : string) : M (option Feature) :=
  try_catch
    (data <- request PDOK zipcode ;;
     found <- fromCentroid data zipcode ;;
     match found with
     | Some feature => ret (Some feature)
     | None => fetchFromNominatim zipcode
     end)
    (fun _ =>
       console_error ("Error fetching zipcode " ++ zipcode ++ ":") ;;;
       ret None).

Definition nat_text (n : nat) : string := NilEmpty.string_of_uint (Nat.to_uint n).

Definition with_layerGroup (ls : list Layer) (w : World) : World :=
  {| layerGroup := ls; searchLayerGroup := searchLayerGroup w;
     statusDiv := statusDiv w; resultDiv := resultDiv w; trace := trace w |}.

Definition with_searchLayerGroup (ls : list Layer) (w : World) : World :=
  {| layerGroup := layerGroup w; searchLayerGroup := ls;
     statusDiv := statusDiv w; resultDiv := resultDiv w; trace := trace w |}.

Definition with_statusDiv (s : option string) (w : World) : World :=
  {| layerGroup := layerGroup w; searchLayerGroup := searchLayerGroup w;
     statusDiv := s; resultDiv := resultDiv w; trace := trace w |}.

Definition with_resultDiv (s : option ResultText) (w : World) : World :=
  {| layerGroup := layerGroup w; searchLayerGroup := searchLayerGroup w;
     statusDiv := statusDiv w; resultDiv := s; trace := trace w |}.

(** [if (statusDiv) statusDiv.textContent = text] *)
Definition set_status (text : string) : M unit :=
  modify (fun w => match statusDiv w with
                   | Some _ => with_statusDiv (Some text) w
                   | None => w
                   end).

(** A write to the [searchResult] element held by [searchZipcode]. *)
Definition set_result (text : ResultText) : M unit :=
  modify (with_resultDiv (Some text)).

(** [plotZipcode] *)
Definition plotZipcode (geojson : option Feature) : M unit :=
  match geojson with
  | None => ret tt
  | Some feature =>
      if geoJSON_accepts host feature then
        let layer :=
          {| layer_feature := feature;
             layer_style :=
               {| fillColor := cfg_fillColor (mapConfig config);
                  fillOpacity := cfg_fillOpacity (mapConfig config);
                  color := strokeColor (mapConfig config);
                  weight := strokeWeight (mapConfig config) |};
             layer_popup :=
               if String.eqb (postcode feature) "" then None
               else Some ("Postcode: " ++ postcode feature) |} in
        modify (fun w => with_layerGroup (layerGroup w ++ [layer])%list w)
      else throw HostError
  end.

(** The body of the [for ... of] loop of [plotAllZipcodes], with its
    [try]/[catch]; the counters are threaded. *)
Definition plot_one (zipcode : string) (successCount failCount : nat)
  : M (nat * nat) :=
  try_catch
    (set_status ("Loading: " ++ zipcode ++ "...") ;;;
     geometry <- fetchZipcodeGeometry zipcode ;;
     counts <-
       match geometry with
       | Some g => plotZipcode (Some g) ;;;
                   ret (S successCount, failCount)
       | None =>
           console_warn ("Could not find geometry for zipcode: " ++ zipcode) ;;;
           ret (successCount, S failCount)
       end ;;
     emit (ESleep 500) ;;;
     ret counts)
    (fun _ =>
       console_error ("Error processing zipcode " ++ zipcode ++ ":") ;;;
       ret (successCount, S failCount)).

(** The loop over the configured codes, in order. *)
Fixpoint plot_loop (codes : list string) (successCount failCount : nat)
  : M (nat * nat) :=
  match codes with
  | [] => ret (successCount, failCount)
  | zipcode :: rest =>
      counts <- plot_one zipcode successCount failCount ;;
      plot_loop rest (fst counts) (snd counts)
  end.

Definition loaded_text (successCount failCount : nat) : string :=
  "Loaded " ++ nat_text successCount ++ " zip codes successfully" ++
  (if (0 <? failCount)%nat then ", " ++ nat_text failCount ++ " failed" else "").

(** [plotAllZipcodes]; the result is the pair of counters. *)
Definition plotAllZipcodes : M (nat * nat) :=
  set_status "Loading zip codes..." ;;;
  counts <- plot_loop (zipcodes config) 0 0 ;;
  set_status (loaded_text (fst counts) (snd counts)) ;;;
  w <- get ;;
  let layers := layerGroup w in
  (if (0 <? List.length layers)%nat then
     emit (EFitBounds (BoundsOfLayers layers) (50, 50))
   else ret tt) ;;;
  ret counts.

(** [clearAll] *)
Definition clearAll : M unit := modify (with_layerGroup []).

(** [trimZipcode] *)
Definition trimZipcode (input : string) : string := remove_letters input.

(** [clearSearch] *)
Definition clearSearch : M unit :=
  modify (with_searchLayerGroup []) ;;;
  modify (fun w => match resultDiv w with
                   | Some _ => with_resultDiv (Some Blank) w
                   | None => w
                   end).

(** [plotZipcodeWithStyle] *)
Definition plotZipcodeWithStyle (zipcode : string) (colour : string)
  (isPolluted : bool) : M unit :=
  geometry <- fetchZipcodeGeometry zipcode ;;
  match geometry with
  | None => ret tt
  | Some g =>
      if geoJSON_accepts host g then
        let message := if isPolluted then "POLLUTED WATER!" else "Safe to drink" in
        let layer :=
          {| layer_feature := g;
             layer_style := {| fillColor := colour;
                               fillOpacity := JFin (7 / 10);
                               color := colour;
                               weight := JFin 3 |};
             layer_popup :=
               Some ("Postcode: " ++ zipcode ++ "<br/><strong>" ++ message
                     ++ "</strong>") |} in
        modify (fun w => with_searchLayerGroup (searchLayerGroup w ++ [layer])%list w)
      else throw HostError
  end.

(** [c => [c[1], c[0]]] *)
Definition swap_pair (c : jsval) : Res (jsval * jsval) :=
  match get_index c 1 with
  | Throw e => Throw e
  | Ok c1 => match get_index c 0 with
             | Throw e => Throw e
             | Ok c0 => Ok (c1, c0)
             end
  end.

Fixpoint map_swap (items : list jsval) : Res (list (jsval * jsval)) :=
  match items with
  | [] => Ok []
  | c :: t => match swap_pair c with
              | Throw e => Throw e
              | Ok p => match map_swap t with
                        | Throw e => Throw e
                        | Ok ps => Ok (p :: ps)
                        end
              end
  end.

(** The test [!zipcode || zipcode.length !== 4]. *)
Definition invalid_zipcode (zipcode : string) : bool :=
  String.eqb zipcode "" || negb (String.length zipcode =? 4)%nat.

(** [this.config.zipcodes.includes(zipcode)] *)
Definition includes (zipcode : string) : bool :=
  existsb (String.eqb zipcode) (zipcodes config).

(** Lines 286-292: the second resolution and the viewport instruction. *)
Definition zoomToZipcode (zipcode : string) : M unit :=
  found <- fetchZipcodeGeometry zipcode ;;
  match found with
  | None => ret tt
  | Some g =>
      let coords := opt_index (opt_prop (geometry g) "coordinates") 0 in
      if truthy coords then
        items <- lift (array_items coords) ;;
        pairs <- lift (map_swap items) ;;
        emit (EFitBounds (BoundsOfPairs pairs) (50, 50))
      else ret tt
  end.

(** Lines 274-297 of [searchZipcode]: the [try] block with its [catch]. *)
Definition styleAndZoom (zipcode : string) : M unit :=
  try_catch
    ((if includes zipcode then
        plotZipcodeWithStyle zipcode "#e74c3c" true ;;;
        set_result Polluted
      else
        plotZipcodeWithStyle zipcode "#27ae60" false ;;;
        set_result Safe) ;;;
     zoomToZipcode zipcode)
    (fun _ =>
       console_error "Search error:" ;;;
       set_result SearchError).

(** [searchZipcode] *)
Definition searchZipcode (input : string) : M unit :=
  w <- get ;;
  match resultDiv w with
  | None => ret tt
  | Some _ =>
      clearSearch ;;;
      let zipcode := trimZipcode (trim input) in
      if invalid_zipcode zipcode then set_result InvalidInput
      else
        set_result Checking ;;;
        styleAndZoom zipcode
  end.

End Kakona.

(** A page with both text elements, empty overlay groups and no history. *)
Definition fresh_world : World :=
  {| layerGroup := []; searchLayerGroup := [];
     statusDiv := Some ""; resultDiv := Some Blank; trace := [] |}.

Definition is_fitBounds (e : Event) : bool :=
  match e with EFitBounds _ _ => true | _ => false end.

Definition run {A} (m : M A) (w : World) : World := snd (m w).
Definition result {A} (m : M A) (w : World) : Res A := fst (m w).

(* ================================================================== *)
(** ** Notions used in the statements *)

(** The world after the events [t], in order. *)
Definition logs (t : list Event) (w : World) : World :=
  fold_left (fun w e => log e w) t w.

(** Two worlds that differ at most in their traces. *)
Definition same_page (w w' : World) : Prop :=
  layerGroup w' = layerGroup w /\
  searchLayerGroup w' = searchLayerGroup w /\
  statusDiv w' = statusDiv w /\
  resultDiv w' = resultDiv w.

(** A complete feature record for [zipcode]: the three fields of the
    object literal, with the given code and a geometry that is present. *)
Definition well_formed (zipcode : string) (f : Feature) : Prop :=
  ftype f = "Feature" /\ postcode f = zipcode /\ truthy (geometry f) = true.

(** The outcome of the primary step on a parsed body. *)
Definition primary_outcome (data : jsval) (zipcode : string)
  : Res (option Feature) :=
  fst (fromCentroid data zipcode fresh_world).


(** The events a computation started in [w] adds to the trace. *)
Definition new_events {A} (m : M A) (w : World) : list Event :=
  skipn (List.length (trace w)) (trace (run m w)).

(** The resolution started in [w] sends a request to the secondary
    service. *)
Definition attempts_fallback (net : Net) (zipcode : string) (w : World) : Prop :=
  In (EFetch Nominatim zipcode) (new_events (fetchZipcodeGeometry net zipcode) w).

Definition fetch_error_log (zipcode : string) : Event :=
  EConsoleError ("Error fetching zipcode " ++ zipcode ++ ":").

Definition nominatim_error_log (zipcode : string) : Event :=
  EConsoleError ("Nominatim error for " ++ zipcode ++ ":").

(** The body of a primary-service reply whose first record carries the
    centroid text [s]: [{ response: { docs: [{ centroide_ll: s }] } }]. *)
Definition centroid_body (s : string) : jsval :=
  VObj [("response",
         VObj [("docs", VArr [VObj [("centroide_ll", VStr s)]])])].


(** A network whose primary service answers every code with the centroid
    text [POINT(Infinity 52)]. *)
Definition net_infinite_centroid : Net :=
  fun _ svc _ =>
    match svc with
    | PDOK => Json (centroid_body "POINT(Infinity 52)")
    | Nominatim => NetFail
    end.

(** A computation that, from any world, adds only events satisfying [P]
    to the trace. *)
Definition emits {A} (P : Event -> Prop) (m : M A) : Prop :=
  forall w, exists t, trace (snd (m w)) = (trace w ++ t)%list /\ Forall P t.

(** A computation whose first new event is [e], and whose later events
    satisfy [P]. *)
Definition starts_with {A} (e : Event) (P : Event -> Prop) (m : M A) : Prop :=
  forall w, exists t, trace (snd (m w)) = (trace w ++ e :: t)%list /\ Forall P t.

(** A computation that leaves the trace as it is. *)
Definition silent {A} (m : M A) : Prop :=
  forall w, trace (snd (m w)) = trace w.

(** The events a resolution can produce: requests and console lines. *)
Definition resolver_event (e : Event) : Prop :=
  match e with
  | EFetch _ _ | EConsoleError _ => True
  | ESleep _ | EConsoleWarn _ | EFitBounds _ _ => False
  end.

Definition any_event (e : Event) : Prop := True.

(** The configuration of the README: three codes and the default style. *)
Definition sample_config : Config :=
  {| zipcodes := ["1951"; "1945"; "2011"];
     mapConfig := {| center := (JFin (523676 / 10000), JFin (49041 / 10000));
                     zoom := JFin 8;
                     cfg_fillColor := "#3388ff";
                     cfg_fillOpacity := JFin (4 / 10);
                     strokeColor := "#0066cc";
                     strokeWeight := JFin 2 |} |}.

(** A map library that renders every feature. *)
Definition lenient_host : Host := {| geoJSON_accepts := fun _ => true |}.

(** A network on which every request fails. *)
Definition net_down : Net := fun _ _ _ => NetFail.

(** The layer [plotZipcode] adds for a feature. *)
Definition bulk_layer (config : Config) (feature : Feature) : Layer :=
  {| layer_feature := feature;
     layer_style :=
       {| fillColor := cfg_fillColor (mapConfig config);
          fillOpacity := cfg_fillOpacity (mapConfig config);
          color := strokeColor (mapConfig config);
          weight := strokeWeight (mapConfig config) |};
     layer_popup :=
       if String.eqb (postcode feature) "" then None
       else Some ("Postcode: " ++ postcode feature) |}.

Definition warn_log (zipcode : string) : Event :=
  EConsoleWarn ("Could not find geometry for zipcode: " ++ zipcode).

Definition processing_error_log (zipcode : string) : Event :=
  EConsoleError ("Error processing zipcode " ++ zipcode ++ ":").

(** The world once the status element, if any, shows [text]. *)
Definition status_shown (text : string) (w : World) : World :=
  match statusDiv w with
  | Some _ => with_statusDiv (Some text) w
  | None => w
  end.

(** How the processing of one code ends. *)
Inductive Ending : Type :=
| Plotted (layer : Layer)   (* resolved and rendered, then the pause *)
| Missing                   (* not resolved, then the pause *)
| Rejected.                 (* resolved, the map library threw: no pause *)

Definition ending_events (zipcode : string) (x : Ending) : list Event :=
  match x with
  | Plotted _ => [ESleep 500]
  | Missing => [warn_log zipcode; ESleep 500]
  | Rejected => [processing_error_log zipcode]
  end.

Definition ending_layers (x : Ending) : list Layer :=
  match x with
  | Plotted layer => [layer]
  | Missing | Rejected => []
  end.

Definition ending_counts (x : Ending) (successCount failCount : nat)
  : nat * nat :=
  match x with
  | Plotted _ => (S successCount, failCount)
  | Missing | Rejected => (successCount, S failCount)
  end.

(** The processing of one code as seen from outside: the code, the
    events of its resolution after the first request, and its ending. *)
Record Step : Type := {
  step_code : string;
  step_resolution : list Event;
  step_ending : Ending
}.

Definition step_events (st : Step) : list Event :=
  (EFetch PDOK (step_code st) :: step_resolution st
     ++ ending_events (step_code st) (step_ending st))%list.

Definition steps_events (steps : list Step) : list Event :=
  List.concat (map step_events steps).

Definition steps_layers (steps : list Step) : list Layer :=
  List.concat (map (fun st => ending_layers (step_ending st)) steps).

Fixpoint steps_counts (steps : list Step) (successCount failCount : nat)
  : nat * nat :=
  match steps with
  | [] => (successCount, failCount)
  | st :: rest =>
      let c := ending_counts (step_ending st) successCount failCount in
      steps_counts rest (fst c) (snd c)
  end.

(** The instruction [fitBounds(group.getBounds(), { padding: [50, 50] })]
    issued when the group [layers] is not empty. *)
Definition fit_group (layers : list Layer) : list Event :=
  if (0 <? List.length layers)%nat
  then [EFitBounds (BoundsOfLayers layers) (50, 50)]
  else [].




(** The geometry types the map library renders; on any other geometry
    [L.geoJSON] throws. *)
Definition geojson_types : list string :=
  ["Point"; "MultiPoint"; "LineString"; "MultiLineString"; "Polygon";
   "MultiPolygon"; "GeometryCollection"].

(** A map library that throws on a feature whose geometry is not an
    object with one of the known types. *)
Definition strict_host : Host :=
  {| geoJSON_accepts := fun f =>
       match geometry f with
       | VObj fields =>
           match lookup "type" fields with
           | VStr t => existsb (String.eqb t) geojson_types
           | _ => false
           end
       | _ => false
       end |}.

(** A network whose primary service knows no code and whose secondary
    service answers every code with a geometry of an unknown type. *)
Definition unknown_geometry : jsval := VObj [("type", VStr "Unknown")].

Definition net_unknown_geometry : Net :=
  fun _ svc _ =>
    match svc with
    | PDOK => Json (VObj [])
    | Nominatim => Json (VArr [VObj [("geojson", unknown_geometry)]])
    end.

Definition config_two_codes : Config :=
  {| zipcodes := ["2011"; "1951"]; mapConfig := mapConfig sample_config |}.

(** An ending [Rejected] is due to a feature the map library throws on. *)
Definition ending_sound (host : Host) (x : Ending) : Prop :=
  match x with
  | Rejected => exists g, geoJSON_accepts host g = false
  | Plotted _ | Missing => True
  end.

(** The events of a step end with the 500 ms pause. *)
Definition ends_with_pause (st : Step) : Prop :=
  exists before, step_events st = (before ++ [ESleep 500])%list.



Definition outcome_text (flagged : bool) : ResultText :=
  if flagged then Polluted else Safe.

(** A point geometry, as the secondary service returns for a postal code
    it knows by its centre only:
    [{ type: "Point", coordinates: [4, 52] }]. *)
Definition point_geometry : jsval :=
  VObj [("type", VStr "Point");
        ("coordinates", VArr [VNum (JFin 4); VNum (JFin 52)])].

(** A network whose primary service knows no code and whose secondary
    service answers every code with [point_geometry]. *)
Definition net_point : Net :=
  fun _ svc _ =>
    match svc with
    | PDOK => Json (VObj [])
    | Nominatim => Json (VArr [VObj [("geojson", point_geometry)]])
    end.

Definition point_feature (zipcode : string) : Feature :=
  {| ftype := "Feature"; postcode := zipcode; geometry := point_geometry |}.

(** The world once a search has cleared its overlay group and shows
    [Checking...]. *)
Definition search_started (w : World) : World :=
  snd ((clearSearch ;;; set_result Checking) w).


(** The angle of vertex [i] as a real number: [(i / 20) * 2 * pi]. *)
Definition theta (i : nat) : R := (INR i / INR points * 2 * PI)%R.

(** The centre latitude in radians: [lat * Math.PI / 180]. *)
Definition radians (lat : jsnum) : jsnum := jdiv (jmul lat Math_PI) (JFin 180).

(** A pair of finite numbers. *)
Definition finite_pair (p : jsnum * jsnum) : Prop :=
  isFinite_num (fst p) = true /\ isFinite_num (snd p) = true.

(** The parsed body [data] of a primary-service reply carries the
    centroid text [s]: [data.response.docs] has a positive length and
    its first record has the string [s] as its [centroide_ll]. *)
Definition carries_centroid (data : jsval) (s : string) : Prop :=
  exists response docs doc,
    get_prop data "response" = Ok response /\
    js_gt0 (opt_prop (opt_prop response "docs") "length") = true /\
    get_prop response "docs" = Ok docs /\
    get_index docs 0 = Ok doc /\
    get_prop doc "centroide_ll" = Ok (VStr s).


(** The feature the approximator builds for that centroid. *)
Definition centroid_feature (zipcode : string) : Feature :=
  createApproximatePolygon (Number "52.3") (Number "4.9") zipcode.

(** The network of the batch example of the specification: the primary
    service has a centroid for "1951" and nothing for any other code;
    the secondary service answers with a polygon. *)
Definition polygon_geometry : jsval :=
  VObj [("type", VStr "Polygon");
        ("coordinates",
         VArr [VArr [VArr [VNum (JFin 4); VNum (JFin 52)];
                     VArr [VNum (JFin 5); VNum (JFin 52)];
                     VArr [VNum (JFin 5); VNum (JFin 53)];
                     VArr [VNum (JFin 4); VNum (JFin 52)]]])].

Definition net_mixed : Net :=
  fun _ svc zipcode =>
    match svc with
    | PDOK => if String.eqb zipcode "1951"
              then Json (centroid_body "POINT(4.9 52.3)")
              else Json (VObj [])
    | Nominatim => Json (VArr [VObj [("geojson", polygon_geometry)]])
    end.

Definition config_1951_2011 : Config :=
  {| zipcodes := ["1951"; "2011"]; mapConfig := mapConfig sample_config |}.

Definition polygon_feature (zipcode : string) : Feature :=
  {| ftype := "Feature"; postcode := zipcode; geometry := polygon_geometry |}.

(* ================================================================== *)
(** ** The page's handlers *)


(** No character of [s] is a letter. *)
Definition no_letters (s : string) : bool :=
  forallb (fun c => negb (is_letter c)) (chars s).

(** A computation whose final world is related by [R] to its initial
    world, whether it returns or throws. *)
Definition keeps {A} (R : World -> World -> Prop) (m : M A) : Prop :=
  forall w, R w (snd (m w)).

(** A computation that returns normally from every world. *)
Definition never_throws {A} (m : M A) : Prop :=
  forall w, exists a, fst (m w) = Ok a.

(** The batch plotter's frame: the search overlay group and the result
    element are as before, and the status element is still there, or
    still missing. *)
Definition batch_frame (w w' : World) : Prop :=
  searchLayerGroup w' = searchLayerGroup w /\
  resultDiv w' = resultDiv w /\
  (statusDiv w' = None <-> statusDiv w = None).

(** The search controller's frame: the bulk overlay group and the status
    element are as before, and the result element is still there, or
    still missing. *)
Definition search_frame (w w' : World) : Prop :=
  layerGroup w' = layerGroup w /\
  statusDiv w' = statusDiv w /\
  (resultDiv w' = None <-> resultDiv w = None).

(** A coordinate text: no space and no closing parenthesis in it. *)
Definition plain (s : string) : bool :=
  forallb (fun c => negb (Ascii.eqb c " "%char) && not_rparen c) (chars s).

(** The centroid text [POINT(<lon> <lat>)]. *)
Definition point_text (lon lat : string) : string :=
  "POINT(" ++ lon ++ " " ++ lat ++ ")".

(** The parsed body [data] of a secondary-service reply offers the
    geometry [g]: [data.length] is positive and [data[0].geojson] is [g],
    a value that counts as present. *)
Definition offers_geometry (data g : jsval) : Prop :=
  exists len first,
    get_prop data "length" = Ok len /\ js_gt0 len = true /\
    get_index data 0 = Ok first /\
    get_prop first "geojson" = Ok g /\ truthy g = true.

(** The pair [p] of a ring, in (longitude, latitude) order, lies at the
    radius 0.02 from the centre [(x, y)] (latitude, longitude) once the
    longitude difference is scaled back by the cosine of the latitude,
    and its latitude is within 0.02 of the centre's. *)
Definition on_circle (x y : R) (p : jsnum * jsnum) : Prop :=
  exists lo la : R,
    p = (JFin lo, JFin la) /\
    ((la - x) * (la - x)
       + ((lo - y) * cos (x * PI / 180)) * ((lo - y) * cos (x * PI / 180))
     = (2 / 100) * (2 / 100))%R /\
    (x - 2 / 100 <= la <= x + 2 / 100)%R.

(** The search overlay group is as before, or has one more layer. *)
Definition search_same (w w' : World) : Prop :=
  searchLayerGroup w' = searchLayerGroup w.

Definition search_one_more (w w' : World) : Prop :=
  searchLayerGroup w' = searchLayerGroup w \/
  exists layer, searchLayerGroup w' = (searchLayerGroup w ++ [layer])%list.

(** The number of requests to the primary service in a list of events. *)
Definition is_primary_request (e : Event) : bool :=
  match e with
  | EFetch PDOK _ => true
  | _ => false
  end.

Definition primary_requests (t : list Event) : nat :=
  List.length (filter is_primary_request t).

(** A computation that, from any world, adds events holding exactly [n]
    requests to the primary service, whether it returns or throws. *)
Definition requests {A} (n : nat) (m : M A) : Prop :=
  forall w, exists t,
    trace (snd (m w)) = (trace w ++ t)%list /\ primary_requests t = n.

(** The search controller's frame, for a page that has the result
    element. *)
Definition search_frame_if_present (w w' : World) : Prop :=
  resultDiv w <> None -> search_frame w w'.

(** What loading [./config.json] ends in: [fetch] rejects,
    [response.json()] rejects, or a body that, as the type annotation of
    the source has it, is a [Config]. *)
Inductive ConfigReply : Type :=
| ConfigNetFail
| ConfigBadJson
| ConfigLoaded (config : Config).

(** [new Kakona(config)]: two fresh, empty overlay groups on a new map. *)
Definition construct : M unit :=
  modify (fun w => with_searchLayerGroup [] (with_layerGroup [] w)).

Definition load_config (reply : ConfigReply) : M Config :=
  match reply with
  | ConfigNetFail => throw NetworkError
  | ConfigBadJson => throw SyntaxError
  | ConfigLoaded config => ret config
  end.

(** The [DOMContentLoaded] handler, lines 313-368: load the
    configuration, build the mapper, plot every code; any error ends in
    the [catch].  The registration of the button handlers, which follows
    the plot and has no effect of its own, is left out. *)
Definition initialize (reply : ConfigReply) (net : Net) (host : Host) : M unit :=
  try_catch
    (config <- load_config reply ;;
     construct ;;;
     plotAllZipcodes config net host ;;;
     ret tt)
    (fun _ =>
       console_error "Error initializing mapper:" ;;;
       set_status "Error loading configuration").

(** A layer of the bulk overlay group as [plotZipcode] makes it for one
    of the codes [codes]: a complete feature for that code, the style of
    the configuration, and the popup [Postcode: <code>] (no popup for an
    empty code). *)
Definition bulk_layer_for (config : Config) (codes : list string) (l : Layer)
  : Prop :=
  exists g,
    In (postcode g) codes /\ well_formed (postcode g) g /\
    layer_feature l = g /\
    layer_style l
      = {| fillColor := cfg_fillColor (mapConfig config);
           fillOpacity := cfg_fillOpacity (mapConfig config);
           color := strokeColor (mapConfig config);
           weight := strokeWeight (mapConfig config) |} /\
    layer_popup l
      = (if String.eqb (postcode g) "" then None
         else Some ("Postcode: " ++ postcode g)).



Definition all_digits (s : string) : bool := forallb is_digit (chars s).
Definition all_letters (s : string) : bool := forallb is_letter (chars s).
(* ================================================================== *)
(** * Checks of the string layer on concrete inputs *)

Example Number_NaN : Number "abc" = JNaN.
Proof. reflexivity. Qed.
Example Number_Infinity : Number " -Infinity " = JInf true.
Proof. reflexivity. Qed.
Example Number_empty : Number "" = JFin 0.
Proof. reflexivity. Qed.
Example Number_decimal :
  Number "5.25" = JFin (Rmult (IZR 525) (powerRZ 10 (-2))).
Proof. reflexivity. Qed.
Example Number_hex : Number "0x1F" = JFin (IZR 31).
Proof. reflexivity. Qed.
Example Number_dot : Number "." = JNaN.
Proof. reflexivity. Qed.
Example Number_two_signs : Number "+-1" = JNaN.
Proof. reflexivity. Qed.
Example match_POINT_ok : match_POINT "POINT(4.9 52.3)" = Some "4.9 52.3".
Proof. reflexivity. Qed.
Example match_POINT_open : match_POINT "POINT(4.9 52.3" = None.
Proof. reflexivity. Qed.
Example match_POINT_empty : match_POINT "POINT()" = None.
Proof. reflexivity. Qed.
Example split_space_two : split_space "4.9 52.3" = ["4.9"; "52.3"].
Proof. reflexivity. Qed.
Example split_space_empty : split_space "" = [""].
Proof. reflexivity. Qed.

(* ================================================================== *)
(** * Laws of the effect monad and of the world updates *)

Lemma is_pos_INR (n : nat) : is_pos (INR n) = (0 <? n)%nat.
Proof.
  unfold is_pos. destruct (Rlt_dec 0 (INR n)) as [H | H].
  - destruct n; [simpl in H; lra | reflexivity].
  - destruct n; [reflexivity | exfalso; apply H; apply lt_0_INR; lia].
Qed.

Lemma js_gt0_length (n : nat) : js_gt0 (VNum (of_nat n)) = (0 <? n)%nat.
Proof. unfold js_gt0, of_nat. simpl. apply is_pos_INR. Qed.

Lemma pure_world {A} (r : Res A) (w : World) : lift r w = (r, w).
Proof. reflexivity. Qed.

(** The primary step reads the body and nothing else: it leaves the
    world as it found it, and its outcome does not depend on the world. *)
Lemma fromCentroid_pure (data : jsval) (zipcode : string) (w : World) :
  fromCentroid data zipcode w = (fst (fromCentroid data zipcode fresh_world), w).
Proof.
  unfold fromCentroid, bind, lift, ret.
  destruct (get_prop data "response") as [response | e]; [| reflexivity].
  destruct (js_gt0 _); [| reflexivity].
  destruct (get_prop response "docs") as [docs | e]; [| reflexivity].
  destruct (get_index docs 0) as [doc | e]; [| reflexivity].
  destruct (get_prop doc "centroide_ll") as [c | e]; [| reflexivity].
  destruct (truthy c); [| reflexivity].
  destruct (centroid_match c) as [[g |] | e]; try reflexivity.
  cbv zeta.
  destruct (negb _ && negb _); [| reflexivity].
  destruct (nth_error (map Number (split_space g)) 1),
    (nth_error (map Number (split_space g)) 0); reflexivity.
Qed.

Lemma trace_logs (t : list Event) (w : World) :
  trace (logs t w) = (trace w ++ t)%list.
Proof.
  revert w. induction t as [| e t IH]; intro w; simpl.
  - now rewrite app_nil_r.
  - unfold logs in IH. rewrite IH. simpl. now rewrite <- app_assoc.
Qed.

Lemma same_page_logs (t : list Event) (w : World) : same_page w (logs t w).
Proof.
  revert w. induction t as [| e t IH]; intro w; simpl.
  - repeat split.
  - destruct (IH (log e w)) as (H1 & H2 & H3 & H4). repeat split; assumption.
Qed.

Lemma logs_app (t u : list Event) (w : World) :
  logs (t ++ u) w = logs u (logs t w).
Proof. unfold logs. apply fold_left_app. Qed.

(** [fetchFromNominatim] never throws; it adds its request and at most
    one console line to the trace; a feature it returns is complete. *)
Lemma fetchFromNominatim_cases (net : Net) (zipcode : string) (w : World) :
  exists r t,
    fetchFromNominatim net zipcode w
      = (Ok r, logs (EFetch Nominatim zipcode :: t) w) /\
    (t = [] \/ t = [nominatim_error_log zipcode]) /\
    (forall f, r = Some f -> well_formed zipcode f).
Proof.
  unfold fetchFromNominatim, try_catch, bind, request, lift, ret,
    console_error, emit, modify.
  destruct (net (List.length (trace w)) Nominatim zipcode) as [| | data].
  1,2: exists None, [nominatim_error_log zipcode];
       split; [reflexivity | split; [now right | discriminate]].
  destruct (get_prop data "length") as [len | e].
  2: { exists None, [nominatim_error_log zipcode].
       split; [reflexivity | split; [now right | discriminate]]. }
  destruct (js_gt0 len).
  2: { exists None, []. split; [reflexivity | split; [now left | discriminate]]. }
  destruct (get_index data 0) as [first | e].
  2: { exists None, [nominatim_error_log zipcode].
       split; [reflexivity | split; [now right | discriminate]]. }
  destruct (get_prop first "geojson") as [g | e].
  2: { exists None, [nominatim_error_log zipcode].
       split; [reflexivity | split; [now right | discriminate]]. }
  destruct (truthy g) eqn:Hg.
  - eexists; exists []. split; [reflexivity | split; [now left |]].
    intros f Hf. injection Hf as <-. repeat split; assumption.
  - exists None, []. split; [reflexivity | split; [now left | discriminate]].
Qed.

(** [fetchZipcodeGeometry], case by case on the reply of the primary
    service. *)
Lemma fetchZipcodeGeometry_unfold (net : Net) (zipcode : string) (w : World) :
  fetchZipcodeGeometry net zipcode w =
  let w1 := log (EFetch PDOK zipcode) w in
  match net (List.length (trace w)) PDOK zipcode with
  | NetFail | BadJson => (Ok None, log (fetch_error_log zipcode) w1)
  | Json data =>
      match primary_outcome data zipcode with
      | Throw _ => (Ok None, log (fetch_error_log zipcode) w1)
      | Ok (Some f) => (Ok (Some f), w1)
      | Ok None => fetchFromNominatim net zipcode w1
      end
  end.
Proof.
  unfold fetchZipcodeGeometry, try_catch, bind, request.
  destruct (net (List.length (trace w)) PDOK zipcode) as [| | data];
    try reflexivity.
  rewrite fromCentroid_pure. fold (primary_outcome data zipcode). cbv zeta.
  destruct (primary_outcome data zipcode) as [[f |] | e]; try reflexivity.
  destruct (fetchFromNominatim_cases net zipcode (log (EFetch PDOK zipcode) w))
    as (r & t & E & _).
  rewrite E. reflexivity.
Qed.

(** The primary step on a body that carries a centroid text. *)
Lemma primary_outcome_carried (data : jsval) (s zipcode : string) :
  carries_centroid data s ->
  primary_outcome data zipcode =
  if String.eqb s "" then Ok None
  else match match_POINT s with
       | None => Ok None
       | Some g =>
           let nums := map Number (split_space g) in
           if negb (isNaN (nth_error nums 1)) && negb (isNaN (nth_error nums 0))
           then match nth_error nums 1, nth_error nums 0 with
                | Some la, Some lo =>
                    Ok (Some (createApproximatePolygon la lo zipcode))
                | _, _ => Ok None
                end
           else Ok None
       end.
Proof.
  intros (response & docs & doc & H1 & H2 & H3 & H4 & H5).
  unfold primary_outcome, fromCentroid, bind, lift, ret.
  rewrite H1. cbv beta iota. rewrite H2, H3. cbv beta iota.
  rewrite H4. cbv beta iota. rewrite H5. cbv beta iota.
  unfold truthy, centroid_match.
  destruct (String.eqb s "") eqn:Es; cbn [negb]; cbv beta iota;
    [reflexivity |].
  destruct (match_POINT s) as [g |]; [| reflexivity].
  cbv zeta.
  destruct (map Number (split_space g)) as [| lo [| la rest]]; simpl;
    try reflexivity.
  destruct (isNaN_num la), (isNaN_num lo); reflexivity.
Qed.

Lemma centroid_body_carries (s : string) : carries_centroid (centroid_body s) s.
Proof.
  exists (VObj [("docs", VArr [VObj [("centroide_ll", VStr s)]])]),
    (VArr [VObj [("centroide_ll", VStr s)]]), (VObj [("centroide_ll", VStr s)]).
  split; [reflexivity |]. split; [apply (js_gt0_length 1) |].
  repeat split.
Qed.

Lemma new_events_logs {A} (m : M A) (w : World) (r : Res A) (t : list Event) :
  m w = (r, logs t w) -> new_events m w = t.
Proof.
  intro E. unfold new_events, run. rewrite E. simpl. rewrite trace_logs.
  rewrite skipn_app, Nat.sub_diag, skipn_all. reflexivity.
Qed.

(** A feature produced by the primary step comes from the approximator,
    with the input code and two coordinates that are not NaN. *)
Lemma primary_outcome_feature (data : jsval) (zipcode : string) (f : Feature) :
  primary_outcome data zipcode = Ok (Some f) ->
  exists la lo, isNaN_num la = false /\ isNaN_num lo = false /\
                f = createApproximatePolygon la lo zipcode.
Proof.
  unfold primary_outcome, fromCentroid, bind, lift, ret.
  destruct (get_prop data "response") as [response | e]; [| discriminate].
  destruct (js_gt0 _); [| discriminate].
  destruct (get_prop response "docs") as [docs | e]; [| discriminate].
  destruct (get_index docs 0) as [doc | e]; [| discriminate].
  destruct (get_prop doc "centroide_ll") as [c | e]; [| discriminate].
  destruct (truthy c); [| discriminate].
  destruct (centroid_match c) as [[g |] | e]; try discriminate.
  cbv zeta.
  destruct (map Number (split_space g)) as [| lo [| la rest]]; simpl;
    try discriminate.
  destruct (isNaN_num la) eqn:Ela, (isNaN_num lo) eqn:Elo; simpl;
    try discriminate.
  intro H. injection H as <-. exists la, lo. auto.
Qed.

Lemma createApproximatePolygon_well_formed (la lo : jsnum) (zipcode : string) :
  well_formed zipcode (createApproximatePolygon la lo zipcode).
Proof. repeat split. Qed.

(** The resolver never throws, changes nothing but the trace, adds only
    requests and console lines after its first request, and a feature it
    returns is complete. *)
Lemma fetchZipcodeGeometry_cases (net : Net) (zipcode : string) (w : World) :
  exists r t,
    fetchZipcodeGeometry net zipcode w = (Ok r, logs (EFetch PDOK zipcode :: t) w) /\
    (forall f, r = Some f -> well_formed zipcode f) /\
    Forall resolver_event t.
Proof.
  rewrite fetchZipcodeGeometry_unfold. cbv zeta.
  destruct (net (List.length (trace w)) PDOK zipcode) as [| | data].
  1,2: exists None, [fetch_error_log zipcode];
       split; [reflexivity | split; [discriminate | repeat constructor]].
  destruct (primary_outcome data zipcode) as [[f |] | e] eqn:E.
  - exists (Some f), []. split; [reflexivity |]. split; [| constructor].
    intros f' Hf. injection Hf as <-.
    destruct (primary_outcome_feature _ _ _ E) as (la & lo & _ & _ & ->).
    apply createApproximatePolygon_well_formed.
  - destruct (fetchFromNominatim_cases net zipcode (log (EFetch PDOK zipcode) w))
      as (r & t & E' & Ht & Hwf).
    exists r, (EFetch Nominatim zipcode :: t).
    split; [exact E' |]. split; [exact Hwf |].
    constructor; [exact I |].
    destruct Ht as [-> | ->]; repeat constructor.
  - exists None, [fetch_error_log zipcode].
    split; [reflexivity | split; [discriminate | repeat constructor]].
Qed.

(** The secondary step on a non-empty array whose first element carries
    a [geojson] field that is present. *)
Lemma fetchFromNominatim_array
  (net : Net) (zipcode : string) (w : World) (first : jsval)
  (others : list jsval) (g : jsval) :
  net (List.length (trace w)) Nominatim zipcode = Json (VArr (first :: others)) ->
  get_prop first "geojson" = Ok g ->
  truthy g = true ->
  fetchFromNominatim net zipcode w
    = (Ok (Some {| ftype := "Feature"; postcode := zipcode; geometry := g |}),
       log (EFetch Nominatim zipcode) w).
Proof.
  intros Hnet Hg Ht.
  unfold fetchFromNominatim, try_catch, bind, request, lift, ret.
  rewrite Hnet.
  change (get_prop (VArr (first :: others)) "length")
    with (Ok (VNum (of_nat (S (List.length others))))).
  cbv beta iota. rewrite js_gt0_length.
  change (get_index (VArr (first :: others)) 0) with (Ok first).
  cbv beta iota. rewrite Hg. cbv beta iota. rewrite Ht. reflexivity.
Qed.

(* ================================================================== *)
(** * Which events a computation can add to the trace *)

Section Emits.

Variable P : Event -> Prop.

Lemma silent_emits {A} (m : M A) : silent m -> emits P m.
Proof.
  intros H w. exists []. rewrite H, app_nil_r. split; [reflexivity | constructor].
Qed.

Lemma silent_ret {A} (a : A) : silent (ret a).
Proof. intro w. reflexivity. Qed.

Lemma silent_lift {A} (r : Res A) : silent (lift r).
Proof. intro w. reflexivity. Qed.

Lemma silent_throw {A} (e : Error) : silent (@throw A e).
Proof. intro w. reflexivity. Qed.

Lemma silent_get : silent get.
Proof. intro w. reflexivity. Qed.

Lemma silent_modify (f : World -> World) :
  (forall w, trace (f w) = trace w) -> silent (modify f).
Proof. intros H w. apply H. Qed.

Lemma silent_bind {A B} (m : M A) (k : A -> M B) :
  silent m -> (forall a, silent (k a)) -> silent (bind m k).
Proof.
  intros Hm Hk w. unfold bind. specialize (Hm w).
  destruct (m w) as [[a | e] w1]; simpl in *.
  - rewrite Hk. exact Hm.
  - exact Hm.
Qed.

Lemma emits_emit (e : Event) : P e -> emits P (emit e).
Proof.
  intros He w. exists [e]. split; [reflexivity | repeat constructor; exact He].
Qed.

Lemma emits_bind {A B} (m : M A) (k : A -> M B) :
  emits P m -> (forall a, emits P (k a)) -> emits P (bind m k).
Proof.
  intros Hm Hk w. unfold bind. destruct (Hm w) as (t & Et & Ft).
  destruct (m w) as [[a | e] w1]; simpl in *.
  - destruct (Hk a w1) as (u & Eu & Fu). exists (t ++ u)%list.
    rewrite Eu, Et, app_assoc. split; [reflexivity | now apply Forall_app].
  - exists t. auto.
Qed.

Lemma emits_try_catch {A} (m : M A) (h : Error -> M A) :
  emits P m -> (forall e, emits P (h e)) -> emits P (try_catch m h).
Proof.
  intros Hm Hh w. unfold try_catch. destruct (Hm w) as (t & Et & Ft).
  destruct (m w) as [[a | e] w1]; simpl in *.
  - exists t. auto.
  - destruct (Hh e w1) as (u & Eu & Fu). exists (t ++ u)%list.
    rewrite Eu, Et, app_assoc. split; [reflexivity | now apply Forall_app].
Qed.

Lemma starts_bind {A B} (e : Event) (m : M A) (k : A -> M B) :
  starts_with e P m -> (forall a, emits P (k a)) -> starts_with e P (bind m k).
Proof.
  intros Hm Hk w. unfold bind. destruct (Hm w) as (t & Et & Ft).
  destruct (m w) as [[a | x] w1]; simpl in *.
  - destruct (Hk a w1) as (u & Eu & Fu). exists (t ++ u)%list.
    rewrite Eu, Et, <- app_assoc. split; [reflexivity | now apply Forall_app].
  - exists t. auto.
Qed.

Lemma starts_try_catch {A} (e : Event) (m : M A) (h : Error -> M A) :
  starts_with e P m -> (forall x, emits P (h x)) ->
  starts_with e P (try_catch m h).
Proof.
  intros Hm Hh w. unfold try_catch. destruct (Hm w) as (t & Et & Ft).
  destruct (m w) as [[a | x] w1]; simpl in *.
  - exists t. auto.
  - destruct (Hh x w1) as (u & Eu & Fu). exists (t ++ u)%list.
    rewrite Eu, Et, <- app_assoc. split; [reflexivity | now apply Forall_app].
Qed.

Lemma silent_then_starts {A B} (e : Event) (m : M A) (k : A -> M B) :
  silent m -> (forall a, starts_with e P (k a)) ->
  (forall w x, fst (m w) <> Throw x) ->
  starts_with e P (bind m k).
Proof.
  intros Hm Hk Hok w. unfold bind. specialize (Hm w). specialize (Hok w).
  destruct (m w) as [[a | x] w1]; simpl in *.
  - destruct (Hk a w1) as (t & Et & Ft). exists t. rewrite Et, Hm. auto.
  - exfalso. exact (Hok x eq_refl).
Qed.

End Emits.

Lemma emits_weaken {A} (P Q : Event -> Prop) (m : M A) :
  (forall e, P e -> Q e) -> emits P m -> emits Q m.
Proof.
  intros H Hm w. destruct (Hm w) as (t & Et & Ft). exists t.
  split; [exact Et | eapply Forall_impl; eauto].
Qed.

Lemma starts_weaken {A} (e : Event) (P Q : Event -> Prop) (m : M A) :
  (forall x, P x -> Q x) -> starts_with e P m -> starts_with e Q m.
Proof.
  intros H Hm w. destruct (Hm w) as (t & Et & Ft). exists t.
  split; [exact Et | eapply Forall_impl; eauto].
Qed.

Lemma starts_emits {A} (e : Event) (P : Event -> Prop) (m : M A) :
  P e -> starts_with e P m -> emits P m.
Proof.
  intros He Hm w. destruct (Hm w) as (t & Et & Ft). exists (e :: t).
  split; [exact Et | now constructor].
Qed.

Lemma fetchZipcodeGeometry_starts (net : Net) (zipcode : string) :
  starts_with (EFetch PDOK zipcode) resolver_event
    (fetchZipcodeGeometry net zipcode).
Proof.
  intro w. destruct (fetchZipcodeGeometry_cases net zipcode w)
    as (r & t & E & _ & Ft).
  exists t. rewrite E. cbn [snd]. rewrite trace_logs.
  split; [reflexivity | exact Ft].
Qed.

(* ================================================================== *)
(** * The search controller's trace *)

Lemma set_result_silent (x : ResultText) : silent (set_result x).
Proof. apply silent_modify. reflexivity. Qed.

Lemma clearSearch_silent : silent clearSearch.
Proof.
  unfold clearSearch. apply silent_bind.
  - apply silent_modify. reflexivity.
  - intros _. apply silent_modify. intro w. destruct (resultDiv w); reflexivity.
Qed.

Lemma plotZipcodeWithStyle_starts
  (net : Net) (host : Host) (zipcode colour : string) (isPolluted : bool) :
  starts_with (EFetch PDOK zipcode) any_event
    (plotZipcodeWithStyle net host zipcode colour isPolluted).
Proof.
  unfold plotZipcodeWithStyle. apply starts_bind.
  - eapply starts_weaken; [| apply fetchZipcodeGeometry_starts]. intros; exact I.
  - intros [g |]; apply silent_emits.
    + destruct (geoJSON_accepts host g).
      * apply silent_modify. reflexivity.
      * apply silent_throw.
    + apply silent_ret.
Qed.

Lemma zoomToZipcode_emits (net : Net) (zipcode : string) :
  emits any_event (zoomToZipcode net zipcode).
Proof.
  unfold zoomToZipcode. apply emits_bind.
  - eapply starts_emits; [exact I |].
    eapply starts_weaken; [| apply fetchZipcodeGeometry_starts]. intros; exact I.
  - intros [g |]; [| apply silent_emits, silent_ret].
    destruct (truthy _); [| apply silent_emits, silent_ret].
    apply emits_bind; [apply silent_emits, silent_lift |]. intro items.
    apply emits_bind; [apply silent_emits, silent_lift |]. intro pairs.
    apply emits_emit. exact I.
Qed.

Lemma styleAndZoom_starts
  (config : Config) (net : Net) (host : Host) (zipcode : string) :
  starts_with (EFetch PDOK zipcode) any_event
    (styleAndZoom config net host zipcode).
Proof.
  unfold styleAndZoom. apply starts_try_catch.
  - apply starts_bind; [| intros _; apply zoomToZipcode_emits].
    destruct (includes config zipcode);
      (apply starts_bind;
       [apply plotZipcodeWithStyle_starts
       | intros _; apply silent_emits, set_result_silent]).
  - intros _. apply emits_bind; [apply emits_emit; exact I |].
    intros _. apply silent_emits, set_result_silent.
Qed.

(* ================================================================== *)
(** * The batch plotter, one code at a time *)

Lemma status_shown_frame (text : string) (w : World) :
  trace (status_shown text w) = trace w /\
  layerGroup (status_shown text w) = layerGroup w /\
  searchLayerGroup (status_shown text w) = searchLayerGroup w /\
  resultDiv (status_shown text w) = resultDiv w.
Proof. unfold status_shown. destruct (statusDiv w); repeat split. Qed.

Lemma logs_frame (t : list Event) (w : World) :
  layerGroup (logs t w) = layerGroup w /\
  searchLayerGroup (logs t w) = searchLayerGroup w /\
  statusDiv (logs t w) = statusDiv w /\
  resultDiv (logs t w) = resultDiv w.
Proof. apply (same_page_logs t w). Qed.

(** The processing of one code: its counters, the layer it adds, and
    its events, which begin with the request to the primary service and
    end with the pause unless the map library threw. *)
Lemma plot_one_cases
  (config : Config) (net : Net) (host : Host) (zipcode : string)
  (s f : nat) (w : World) :
  exists (x : Ending) (t : list Event) (w' : World),
    plot_one config net host zipcode s f w = (Ok (ending_counts x s f), w') /\
    layerGroup w' = (layerGroup w ++ ending_layers x)%list /\
    trace w' = (trace w ++ EFetch PDOK zipcode :: t ++ ending_events zipcode x)%list /\
    Forall resolver_event t /\
    searchLayerGroup w' = searchLayerGroup w /\
    resultDiv w' = resultDiv w /\
    ending_sound host x.
Proof.
  unfold plot_one, try_catch, bind, set_status, modify.
  fold (status_shown ("Loading: " ++ zipcode ++ "...") w).
  set (w1 := status_shown ("Loading: " ++ zipcode ++ "...") w).
  destruct (status_shown_frame ("Loading: " ++ zipcode ++ "...") w)
    as (Ht & Hl & Hs & Hr). fold w1 in Ht, Hl, Hs, Hr.
  destruct (fetchZipcodeGeometry_cases net zipcode w1) as (r & t & E & _ & Ft).
  rewrite E.
  set (w2 := logs (EFetch PDOK zipcode :: t) w1).
  assert (Ht2 : trace w2 = (trace w ++ EFetch PDOK zipcode :: t)%list).
  { unfold w2. rewrite trace_logs, Ht. reflexivity. }
  destruct (logs_frame (EFetch PDOK zipcode :: t) w1) as (Hl2 & Hs2 & _ & Hr2).
  fold w2 in Hl2, Hs2, Hr2.
  destruct r as [g |].
  - unfold plotZipcode. destruct (geoJSON_accepts host g) eqn:Hacc.
    + exists (Plotted (bulk_layer config g)), t. eexists.
      split; [reflexivity |]. simpl.
      rewrite Ht2, Hl2, Hl, Hs2, Hs, Hr2, Hr, <- app_assoc. simpl.
      repeat split; auto.
    + exists Rejected, t. eexists. split; [reflexivity |]. simpl.
      rewrite Ht2, Hl2, Hl, Hs2, Hs, Hr2, Hr, <- app_assoc, app_nil_r. simpl.
      repeat split; auto. exists g. exact Hacc.
  - exists Missing, t. eexists. split; [reflexivity |]. simpl.
    rewrite Ht2, Hl2, Hl, Hs2, Hs, Hr2, Hr, <- !app_assoc, app_nil_r. simpl.
    repeat split; auto.
Qed.

(** The loop: one step per code, in the order of the list. *)
Lemma plot_loop_cases
  (config : Config) (net : Net) (host : Host) (codes : list string) :
  forall (s f : nat) (w : World),
  exists (steps : list Step) (w' : World),
    map step_code steps = codes /\
    plot_loop config net host codes s f w = (Ok (steps_counts steps s f), w') /\
    layerGroup w' = (layerGroup w ++ steps_layers steps)%list /\
    trace w' = (trace w ++ steps_events steps)%list /\
    Forall (fun st => Forall resolver_event (step_resolution st)) steps /\
    searchLayerGroup w' = searchLayerGroup w /\
    resultDiv w' = resultDiv w /\
    Forall (fun st => ending_sound host (step_ending st)) steps.
Proof.
  induction codes as [| zipcode rest IH]; intros s f w.
  - exists [], w. simpl. rewrite !app_nil_r. repeat split; constructor.
  - destruct (plot_one_cases config net host zipcode s f w)
      as (x & t & w1 & E1 & Hl1 & Ht1 & Ft & Hs1 & Hr1 & Hx).
    destruct (IH (fst (ending_counts x s f)) (snd (ending_counts x s f)) w1)
      as (steps & w2 & Hc & E2 & Hl2 & Ht2 & Fs & Hs2 & Hr2 & Hxs).
    exists ({| step_code := zipcode; step_resolution := t; step_ending := x |}
              :: steps), w2.
    split; [simpl; now rewrite Hc |].
    split.
    { simpl. unfold bind. rewrite E1. exact E2. }
    split.
    { rewrite Hl2, Hl1. unfold steps_layers. simpl. now rewrite <- app_assoc. }
    split.
    { rewrite Ht2, Ht1. unfold steps_events, step_events. simpl.
      rewrite <- !app_assoc. simpl. rewrite <- !app_assoc. reflexivity. }
    split; [constructor; assumption |].
    split; [congruence |]. split; [congruence |].
    constructor; assumption.
Qed.



(** The whole batch run. *)
Lemma plotAllZipcodes_cases
  (config : Config) (net : Net) (host : Host) (w : World) :
  exists (steps : list Step) (w' : World),
    map step_code steps = zipcodes config /\
    plotAllZipcodes config net host w = (Ok (steps_counts steps 0 0), w') /\
    layerGroup w' = (layerGroup w ++ steps_layers steps)%list /\
    trace w' = (trace w ++ steps_events steps
                  ++ fit_group (layerGroup w ++ steps_layers steps))%list /\
    Forall (fun st => Forall resolver_event (step_resolution st)) steps /\
    Forall (fun st => ending_sound host (step_ending st)) steps.
Proof.
  unfold plotAllZipcodes, bind, set_status, modify, get.
  fold (status_shown "Loading zip codes..." w).
  destruct (status_shown_frame "Loading zip codes..." w) as (Ht & Hl & _ & _).
  destruct (plot_loop_cases config net host (zipcodes config) 0 0
              (status_shown "Loading zip codes..." w))
    as (steps & w1 & Hc & E & Hl1 & Ht1 & Fs & _ & _ & Hxs).
  rewrite E. rewrite Hl in Hl1. rewrite Ht in Ht1.
  set (text := loaded_text _ _).
  fold (status_shown text w1).
  destruct (status_shown_frame text w1) as (Ht2 & Hl2 & _ & _).
  rewrite Hl2, Hl1. exists steps. unfold fit_group.
  destruct (0 <? List.length (layerGroup w ++ steps_layers steps))%nat.
  - eexists. split; [exact Hc |]. split; [reflexivity |].
    simpl. rewrite Ht2, Hl2, Ht1, Hl1, <- app_assoc. repeat split; assumption.
  - eexists. split; [exact Hc |]. split; [reflexivity |].
    simpl. rewrite Ht2, Hl2, Ht1, Hl1, app_nil_r. repeat split; assumption.
Qed.

(** One code whose feature the map library rejects: the [catch] counts a
    failure and logs, and the pause of the [try] block is not reached. *)
Lemma plot_one_rejected
  (config : Config) (net : Net) (host : Host) (zipcode : string)
  (s f : nat) (w w2 : World) (g : Feature) :
  fetchZipcodeGeometry net zipcode
    (status_shown ("Loading: " ++ zipcode ++ "...") w) = (Ok (Some g), w2) ->
  geoJSON_accepts host g = false ->
  plot_one config net host zipcode s f w
    = (Ok (s, S f), log (processing_error_log zipcode) w2).
Proof.
  intros E Hg. unfold plot_one, try_catch, bind, set_status, modify.
  fold (status_shown ("Loading: " ++ zipcode ++ "...") w).
  rewrite E. unfold plotZipcode. rewrite Hg. reflexivity.
Qed.

Lemma fetch_unknown_geometry (zipcode : string) (w : World) :
  fetchZipcodeGeometry net_unknown_geometry zipcode w
    = (Ok (Some {| ftype := "Feature"; postcode := zipcode;
                   geometry := unknown_geometry |}),
       log (EFetch Nominatim zipcode) (log (EFetch PDOK zipcode) w)).
Proof.
  rewrite fetchZipcodeGeometry_unfold. cbv zeta.
  change (net_unknown_geometry (List.length (trace w)) PDOK zipcode)
    with (Json (VObj [])).
  cbv beta iota.
  change (primary_outcome (VObj []) zipcode) with (@Ok (option Feature) None).
  cbv beta iota.
  apply fetchFromNominatim_array
    with (first := VObj [("geojson", unknown_geometry)]) (others := []);
    reflexivity.
Qed.

(* ================================================================== *)
(** * The search controller on a point geometry *)

Lemma is_zero_false (r : R) : r <> 0%R -> is_zero r = false.
Proof. intro H. unfold is_zero. destruct (Req_dec_T r 0); [contradiction | reflexivity]. Qed.

Lemma fetch_point (zipcode : string) (w : World) :
  fetchZipcodeGeometry net_point zipcode w
    = (Ok (Some (point_feature zipcode)),
       log (EFetch Nominatim zipcode) (log (EFetch PDOK zipcode) w)).
Proof.
  rewrite fetchZipcodeGeometry_unfold. cbv zeta.
  change (net_point (List.length (trace w)) PDOK zipcode) with (Json (VObj [])).
  cbv beta iota.
  change (primary_outcome (VObj []) zipcode) with (@Ok (option Feature) None).
  cbv beta iota.
  apply fetchFromNominatim_array
    with (first := VObj [("geojson", point_geometry)]) (others := []);
    reflexivity.
Qed.

(** On a point geometry [coordinates[0]] is a number, which has no
    [map]: the viewport step throws after its resolution. *)
Lemma zoomToZipcode_point (zipcode : string) (w : World) :
  zoomToZipcode net_point zipcode w
    = (Throw TypeError,
       log (EFetch Nominatim zipcode) (log (EFetch PDOK zipcode) w)).
Proof.
  unfold zoomToZipcode, bind. rewrite fetch_point.
  change (opt_index (opt_prop (geometry (point_feature zipcode)) "coordinates") 0)
    with (VNum (JFin 4)).
  assert (Ht : truthy (VNum (JFin 4)) = true).
  { simpl. rewrite is_zero_false; [reflexivity | lra]. }
  rewrite Ht. reflexivity.
Qed.

(* ================================================================== *)
(** * The geocode resolver *)




(** C2: for every postal code (a valid 4-digit one in particular), every
    network and every starting state, the resolution returns normally,
    and what it returns is either absent or a complete feature: its type
    is "Feature", its postcode property is the input code and its
    geometry is present. *)
Theorem C2_resolve_feature_or_absent
  (net : Net) (zipcode : string) (w : World) :
  exists r, result (fetchZipcodeGeometry net zipcode) w = Ok r /\
    (r = None \/
     exists f, r = Some f /\ ftype f = "Feature" /\ postcode f = zipcode /\
               truthy (geometry f) = true).
Proof.
  destruct (fetchZipcodeGeometry_cases net zipcode w) as (r & t & E & Hwf & _).
  exists r. unfold result. rewrite E. split; [reflexivity |].
  destruct r as [f |]; [right | now left].
  exists f. split; [reflexivity |]. exact (Hwf f eq_refl).
Qed.

(** C3, as stated, fails: the centroid text [POINT(Infinity 52)] has a
    longitude that parses to Infinity, which is not a finite number, and
    the resolver still hands the pair to the approximator instead of
    falling through: no request goes to the secondary service. *)
Lemma C3_infinite_coordinate_is_delegated :
  map Number (split_space "Infinity 52") = [JInf false; Number "52"] /\
  isFinite_num (JInf false) = false /\
  fetchZipcodeGeometry net_infinite_centroid "1951" fresh_world
    = (Ok (Some (createApproximatePolygon (Number "52") (JInf false) "1951")),
       logs [EFetch PDOK "1951"] fresh_world).
Proof.
  split; [reflexivity |]. split; [reflexivity |].
  rewrite fetchZipcodeGeometry_unfold. cbv zeta.
  change (net_infinite_centroid (List.length (trace fresh_world)) PDOK "1951")
    with (Json (centroid_body "POINT(Infinity 52)")).
  cbv beta iota.
  rewrite (primary_outcome_carried _ _ _ (centroid_body_carries _)).
  reflexivity.
Qed.

(** C3, amended: on a reply whose first record carries the centroid text
    [s], the primary step looks for [POINT(...)] in [s], splits the
    captured text at single spaces and converts the pieces to numbers.
    It delegates to the approximator exactly when the first two pieces
    exist and neither converts to NaN (an infinite value passes), with
    the second piece as latitude and the first as longitude.  In every
    other case (no match, a missing piece, a piece that converts to NaN)
    it falls through to the fallback step without throwing. *)
Theorem C3_centroid_parse (data : jsval) (s zipcode : string) :
  carries_centroid data s ->
  (exists g lo la others,
      match_POINT s = Some g /\
      map Number (split_space g) = lo :: la :: others /\
      isNaN_num lo = false /\ isNaN_num la = false /\
      primary_outcome data zipcode
        = Ok (Some (createApproximatePolygon la lo zipcode)))
  \/
  ((match_POINT s = None \/
    exists g, match_POINT s = Some g /\
              (isNaN (nth_error (map Number (split_space g)) 0) = true \/
               isNaN (nth_error (map Number (split_space g)) 1) = true)) /\
   primary_outcome data zipcode = Ok None).
Proof.
  intro Hcarried. rewrite (primary_outcome_carried _ _ _ Hcarried).
  destruct (match_POINT s) as [g |] eqn:Em.
  2: { right. split; [now left |]. destruct (String.eqb s ""); reflexivity. }
  destruct (String.eqb s "") eqn:Es.
  { apply String.eqb_eq in Es. subst s. discriminate Em. }
  cbv zeta.
  assert (Hfall : forall P : Prop,
            isNaN (nth_error (map Number (split_space g)) 0) = true \/
            isNaN (nth_error (map Number (split_space g)) 1) = true ->
            P \/ ((Some g = None \/
                   exists g', Some g = Some g' /\
                     (isNaN (nth_error (map Number (split_space g')) 0) = true \/
                      isNaN (nth_error (map Number (split_space g')) 1) = true)) /\
                  @Ok (option Feature) None = Ok None)).
  { intros P H. right. split; [right; exists g; split; [reflexivity | exact H] |
                               reflexivity]. }
  destruct (map Number (split_space g)) as [| lo [| la others]] eqn:En.
  - apply Hfall. now left.
  - apply Hfall. now right.
  - simpl. destruct (isNaN_num la) eqn:Ela.
    { apply Hfall. right. exact Ela. }
    destruct (isNaN_num lo) eqn:Elo.
    { apply Hfall. left. exact Elo. }
    left. exists g, lo, la, others. repeat split; auto.
Qed.

Lemma C3_centroid_parse_witness :
  (exists g lo la others,
      match_POINT "POINT(4.9 52.3)" = Some g /\
      map Number (split_space g) = lo :: la :: others /\
      isNaN_num lo = false /\ isNaN_num la = false /\
      primary_outcome (centroid_body "POINT(4.9 52.3)") "1951"
        = Ok (Some (createApproximatePolygon la lo "1951")))
  \/
  ((match_POINT "POINT(4.9 52.3)" = None \/
    exists g, match_POINT "POINT(4.9 52.3)" = Some g /\
              (isNaN (nth_error (map Number (split_space g)) 0) = true \/
               isNaN (nth_error (map Number (split_space g)) 1) = true)) /\
   primary_outcome (centroid_body "POINT(4.9 52.3)") "1951" = Ok None).
Proof.
  apply (C3_centroid_parse (centroid_body "POINT(4.9 52.3)")
           "POINT(4.9 52.3)" "1951").
  apply centroid_body_carries.
Defined.

(* ================================================================== *)
(** * The search controller: validation *)

Lemma invalid_zipcode_spec (zipcode : string) :
  invalid_zipcode zipcode = true <->
  (zipcode = "" \/ String.length zipcode <> 4).
Proof.
  unfold invalid_zipcode. rewrite orb_true_iff, negb_true_iff.
  rewrite String.eqb_eq, Nat.eqb_neq. reflexivity.
Qed.

Lemma searchZipcode_present
  (config : Config) (net : Net) (host : Host) (input : string) (w : World) :
  resultDiv w <> None ->
  searchZipcode config net host input w =
  (clearSearch ;;;
   if invalid_zipcode (trimZipcode (trim input)) then set_result InvalidInput
   else set_result Checking ;;;
        styleAndZoom config net host (trimZipcode (trim input))) w.
Proof.
  intro H. unfold searchZipcode at 1. unfold bind at 1. unfold get.
  destruct (resultDiv w); [reflexivity | contradiction].
Qed.



(** A stripped value that passes validation is resolved: the first new
    event of the search is the request to the primary service for it. *)
Lemma searchZipcode_valid_fetches
  (config : Config) (net : Net) (host : Host) (input : string) (w : World) :
  resultDiv w <> None ->
  invalid_zipcode (trimZipcode (trim input)) = false ->
  exists t, new_events (searchZipcode config net host input) w
            = EFetch PDOK (trimZipcode (trim input)) :: t.
Proof.
  intros Hr Hv. unfold new_events, run.
  rewrite searchZipcode_present by exact Hr. rewrite Hv.
  assert (S : starts_with (EFetch PDOK (trimZipcode (trim input))) any_event
                (clearSearch ;;; set_result Checking ;;;
                 styleAndZoom config net host (trimZipcode (trim input)))).
  { apply silent_then_starts; [apply clearSearch_silent | | discriminate].
    intros _. apply silent_then_starts;
      [apply set_result_silent | | discriminate].
    intros _. apply styleAndZoom_starts. }
  destruct (S w) as (t & Et & _). exists t. rewrite Et.
  rewrite skipn_app, Nat.sub_diag, skipn_all. reflexivity.
Qed.

(** C9: validation removes letters only.  The inputs "12.4" and "1 23"
    are left as they are by the stripping, have length 4 and pass
    validation although they are not four decimal digits, and the search
    goes on to request the primary service for that string. *)
Theorem C9_non_digit_input_is_resolved
  (config : Config) (net : Net) (host : Host) (w : World) (input : string) :
  resultDiv w <> None ->
  In input ["12.4"; "1 23"] ->
  trimZipcode (trim input) = input /\
  String.length input = 4 /\
  invalid_zipcode input = false /\
  forallb is_digit (chars input) = false /\
  exists t, new_events (searchZipcode config net host input) w
            = EFetch PDOK input :: t.
Proof.
  intros Hr Hin.
  assert (Hs : trimZipcode (trim input) = input /\ String.length input = 4 /\
               invalid_zipcode input = false /\
               forallb is_digit (chars input) = false).
  { destruct Hin as [<- | [<- | []]]; repeat split. }
  destruct Hs as (H1 & H2 & H3 & H4). repeat split; try assumption.
  destruct (searchZipcode_valid_fetches config net host input w Hr) as [t Et].
  - rewrite H1. exact H3.
  - exists t. rewrite Et, H1. reflexivity.
Qed.

Lemma C9_non_digit_input_is_resolved_witness :
  trimZipcode (trim "12.4") = "12.4" /\
  String.length "12.4" = 4 /\
  invalid_zipcode "12.4" = false /\
  forallb is_digit (chars "12.4") = false /\
  exists t, new_events (searchZipcode sample_config net_down lenient_host "12.4")
              fresh_world = EFetch PDOK "12.4" :: t.
Proof.
  apply (C9_non_digit_input_is_resolved
           sample_config net_down lenient_host fresh_world "12.4").
  - discriminate.
  - simpl. left. reflexivity.
Defined.

(* ================================================================== *)
(** * The batch plotter: the viewport *)



(* ================================================================== *)
(** * The batch plotter: order and pacing *)

(** C6 at a failing input.  The configured codes are "2011" and "1951";
    the primary service knows neither, the secondary service answers
    both with a geometry the map library throws on.  Both codes are
    processed in order and counted as failed, and the trace holds no
    pause at all: the request for "1951" follows the handling of "2011"
    at once. *)
Theorem C6_no_pause_after_rejected_feature :
  result (plotAllZipcodes config_two_codes net_unknown_geometry strict_host)
         fresh_world = Ok (0, 2) /\
  new_events (plotAllZipcodes config_two_codes net_unknown_geometry strict_host)
             fresh_world
    = [EFetch PDOK "2011"; EFetch Nominatim "2011"; processing_error_log "2011";
       EFetch PDOK "1951"; EFetch Nominatim "1951"; processing_error_log "1951"].
Proof.
  unfold result, new_events, run, plotAllZipcodes.
  change (zipcodes config_two_codes) with ["2011"; "1951"].
  unfold plot_loop, bind, set_status, modify, ret.
  erewrite plot_one_rejected;
    [| apply fetch_unknown_geometry | reflexivity].
  cbn [fst snd].
  erewrite plot_one_rejected;
    [| apply fetch_unknown_geometry | reflexivity].
  split; reflexivity.
Qed.

(** X24: what holds of every batch run: the codes are processed one after the
    other in the order of the configuration, each starting with its
    request to the primary service; the processing of a code ends with
    the 500 ms pause unless the map library threw on its feature; with a
    map library that never throws, every code is followed by the pause. *)
Theorem batch_run_sequential_and_paced
  (config : Config) (net : Net) (host : Host) (w : World) :
  exists steps : list Step,
    map step_code steps = zipcodes config /\
    new_events (plotAllZipcodes config net host) w
      = (steps_events steps
           ++ fit_group (layerGroup (run (plotAllZipcodes config net host) w)))%list /\
    Forall (fun st => step_ending st <> Rejected -> ends_with_pause st) steps /\
    ((forall g, geoJSON_accepts host g = true) -> Forall ends_with_pause steps).
Proof.
  destruct (plotAllZipcodes_cases config net host w)
    as (steps & w' & Hc & E & Hl & Ht & _ & Hxs).
  exists steps. split; [exact Hc |].
  assert (Hp : forall st, step_ending st <> Rejected -> ends_with_pause st).
  { intros [z t x] Hx. unfold ends_with_pause, step_events. simpl in *.
    destruct x as [layer | |].
    - exists (EFetch PDOK z :: t). reflexivity.
    - exists (EFetch PDOK z :: t ++ [warn_log z]). simpl.
      now rewrite <- app_assoc.
    - contradiction. }
  split.
  { unfold new_events, run. rewrite E. cbn [snd]. rewrite Ht, Hl.
    rewrite skipn_app, Nat.sub_diag, skipn_all. reflexivity. }
  split.
  { apply Forall_forall. intros st _. apply Hp. }
  intro Hall. eapply Forall_impl; [| exact Hxs].
  intros st Hs. apply Hp. intro Hr. unfold ending_sound in Hs.
  rewrite Hr in Hs. destruct Hs as [g Hg]. rewrite Hall in Hg. discriminate.
Qed.

(* ================================================================== *)
(** * The search controller: styling and outcome *)

(** C7 at a failing input.  The code "2011" is in the configured list
    and resolves, through the secondary service, to a feature with a
    point geometry.  Whatever the map library does with it, the search
    ends with the error message in the result element, not with the
    flagged outcome: after the styling step has written the flagged
    message, the viewport step calls [map] on [coordinates[0]], a number,
    and the [catch] overwrites the message. *)
Theorem C7_point_geometry_ends_in_error (host : Host) :
  trimZipcode (trim "2011") = "2011" /\
  invalid_zipcode "2011" = false /\
  includes sample_config "2011" = true /\
  result (fetchZipcodeGeometry net_point "2011") fresh_world
    = Ok (Some (point_feature "2011")) /\
  result (searchZipcode sample_config net_point host "2011") fresh_world
    = Ok tt /\
  resultDiv (run (searchZipcode sample_config net_point host "2011") fresh_world)
    = Some SearchError.
Proof.
  split; [reflexivity |]. split; [reflexivity |]. split; [reflexivity |].
  split; [unfold result; now rewrite fetch_point |].
  unfold result, run.
  rewrite searchZipcode_present by discriminate.
  change (invalid_zipcode (trimZipcode (trim "2011"))) with false.
  change (trimZipcode (trim "2011")) with "2011".
  unfold bind, clearSearch, set_result, modify, bind, styleAndZoom, try_catch, bind.
  change (includes sample_config "2011") with true. cbv iota.
  unfold plotZipcodeWithStyle, bind. rewrite fetch_point.
  destruct (geoJSON_accepts host (point_feature "2011")).
  - unfold modify, set_result, modify. rewrite zoomToZipcode_point.
    split; reflexivity.
  - split; reflexivity.
Qed.

Lemma searchZipcode_valid
  (config : Config) (net : Net) (host : Host) (input : string) (w : World) :
  resultDiv w <> None ->
  invalid_zipcode (trimZipcode (trim input)) = false ->
  searchZipcode config net host input w
    = styleAndZoom config net host (trimZipcode (trim input)) (search_started w).
Proof.
  intros Hr Hv. rewrite searchZipcode_present by exact Hr. rewrite Hv.
  reflexivity.
Qed.

Lemma zoomToZipcode_frame (net : Net) (zipcode : string) (w : World) :
  same_page w (snd (zoomToZipcode net zipcode w)).
Proof.
  unfold zoomToZipcode, bind.
  destruct (fetchZipcodeGeometry_cases net zipcode w) as (r & t & E & _ & _).
  rewrite E.
  pose proof (same_page_logs (EFetch PDOK zipcode :: t) w) as Hp.
  destruct r as [g |]; [| exact Hp].
  destruct (truthy _); [| exact Hp].
  unfold lift. destruct (array_items _) as [items | e]; [| exact Hp].
  destruct (map_swap items) as [pairs | e]; [| exact Hp].
  exact Hp.
Qed.







(* ================================================================== *)
(** * The batch example of the specification *)

Lemma plot_one_plotted
  (config : Config) (net : Net) (host : Host) (zipcode : string)
  (s f : nat) (w w2 : World) (g : Feature) :
  fetchZipcodeGeometry net zipcode
    (status_shown ("Loading: " ++ zipcode ++ "...") w) = (Ok (Some g), w2) ->
  geoJSON_accepts host g = true ->
  plot_one config net host zipcode s f w
    = (Ok (S s, f),
       log (ESleep 500)
         (with_layerGroup (layerGroup w2 ++ [bulk_layer config g])%list w2)).
Proof.
  intros E Hg. unfold plot_one, try_catch, bind, set_status, modify.
  fold (status_shown ("Loading: " ++ zipcode ++ "...") w).
  rewrite E. unfold plotZipcode. rewrite Hg. reflexivity.
Qed.

Lemma fetch_mixed_1951 (w : World) :
  fetchZipcodeGeometry net_mixed "1951" w
    = (Ok (Some (centroid_feature "1951")), log (EFetch PDOK "1951") w).
Proof.
  rewrite fetchZipcodeGeometry_unfold. cbv zeta.
  change (net_mixed (List.length (trace w)) PDOK "1951")
    with (Json (centroid_body "POINT(4.9 52.3)")).
  cbv beta iota.
  rewrite (primary_outcome_carried _ _ _ (centroid_body_carries _)).
  reflexivity.
Qed.

Lemma fetch_mixed_2011 (w : World) :
  fetchZipcodeGeometry net_mixed "2011" w
    = (Ok (Some (polygon_feature "2011")),
       log (EFetch Nominatim "2011") (log (EFetch PDOK "2011") w)).
Proof.
  rewrite fetchZipcodeGeometry_unfold. cbv zeta.
  change (net_mixed (List.length (trace w)) PDOK "2011") with (Json (VObj [])).
  cbv beta iota.
  change (primary_outcome (VObj []) "2011") with (@Ok (option Feature) None).
  cbv beta iota.
  apply fetchFromNominatim_array
    with (first := VObj [("geojson", polygon_geometry)]) (others := []);
    reflexivity.
Qed.

(** Codes "1951" and "2011": the first resolves through the primary
    service, the second through the fallback; both are plotted, none
    fails, a pause follows each, and the viewport is fitted to the two
    layers. *)
Example batch_1951_2011 :
  result (plotAllZipcodes config_1951_2011 net_mixed lenient_host) fresh_world
    = Ok (2, 0) /\
  layerGroup (run (plotAllZipcodes config_1951_2011 net_mixed lenient_host)
                  fresh_world)
    = [bulk_layer config_1951_2011 (centroid_feature "1951");
       bulk_layer config_1951_2011 (polygon_feature "2011")] /\
  new_events (plotAllZipcodes config_1951_2011 net_mixed lenient_host)
             fresh_world
    = [EFetch PDOK "1951"; ESleep 500;
       EFetch PDOK "2011"; EFetch Nominatim "2011"; ESleep 500;
       EFitBounds (BoundsOfLayers
                     [bulk_layer config_1951_2011 (centroid_feature "1951");
                      bulk_layer config_1951_2011 (polygon_feature "2011")])
                  (50, 50)] /\
  statusDiv (run (plotAllZipcodes config_1951_2011 net_mixed lenient_host)
                 fresh_world)
    = Some "Loaded 2 zip codes successfully".
Proof.
  unfold result, new_events, run, plotAllZipcodes.
  change (zipcodes config_1951_2011) with ["1951"; "2011"].
  unfold plot_loop, bind, set_status, modify, ret.
  erewrite plot_one_plotted; [| apply fetch_mixed_1951 | reflexivity].
  cbn [fst snd].
  erewrite plot_one_plotted; [| apply fetch_mixed_2011 | reflexivity].
  repeat split.
Qed.

(* ================================================================== *)
(** * The geometry approximator *)

Lemma push_vertices_seq (lat lon : jsnum) (n i : nat)
  (acc : list (jsnum * jsnum)) :
  push_vertices lat lon n i acc = (acc ++ map (vertex lat lon) (seq i n))%list.
Proof.
  revert i acc. induction n as [| n IH]; intros i acc; simpl.
  - now rewrite app_nil_r.
  - rewrite IH, <- app_assoc. reflexivity.
Qed.

Lemma ring_seq (lat lon : jsnum) :
  ring lat lon =
  (map (fun i => (snd (vertex lat lon i), fst (vertex lat lon i))) (seq 0 points)
     ++ [(snd (vertex lat lon 0), fst (vertex lat lon 0))])%list.
Proof.
  unfold ring, closed_coordinates. rewrite push_vertices_seq. reflexivity.
Qed.

Lemma INR_points : INR points = 20%R.
Proof. unfold points. rewrite INR_IZR_INZ. reflexivity. Qed.

Lemma is_zero_INR_points : is_zero (INR points) = false.
Proof. apply is_zero_false. apply not_0_INR. discriminate. Qed.

Lemma angle_theta (i : nat) : angle i = JFin (theta i).
Proof.
  unfold angle, of_nat, Math_PI, jdiv. rewrite is_zero_INR_points. reflexivity.
Qed.

Lemma latOffset_theta (i : nat) :
  latOffset i = JFin (2 / 100 * cos (theta i)).
Proof. unfold latOffset. rewrite angle_theta. reflexivity. Qed.

Lemma lonOffset_theta (lat : jsnum) (i : nat) :
  lonOffset lat i = jdiv (JFin (2 / 100 * sin (theta i))) (Math_cos (radians lat)).
Proof. unfold lonOffset. rewrite angle_theta. reflexivity. Qed.

Lemma radians_finite (x : R) : radians (JFin x) = JFin (x * PI / 180).
Proof.
  unfold radians, jdiv, jmul, Math_PI.
  rewrite is_zero_false by lra. reflexivity.
Qed.

(** A vertex of a finite centre whose latitude has a non-zero cosine. *)
Lemma vertex_finite (x y : R) (i : nat) :
  cos (x * PI / 180) <> 0%R ->
  vertex (JFin x) (JFin y) i =
  (JFin (x + 2 / 100 * cos (theta i)),
   JFin (y + 2 / 100 * sin (theta i) / cos (x * PI / 180))).
Proof.
  intro Hc. unfold vertex. rewrite latOffset_theta, lonOffset_theta.
  rewrite radians_finite. unfold Math_cos, jdiv, jadd.
  rewrite is_zero_false by exact Hc. reflexivity.
Qed.



Lemma ring_vertex (lat lon : jsnum) (i : nat) :
  (i < 20)%nat ->
  nth_error (ring lat lon) i
    = Some (jadd lon (lonOffset lat i), jadd lat (latOffset i)).
Proof.
  intro Hi. rewrite ring_seq.
  rewrite nth_error_app1 by (rewrite length_map, length_seq; exact Hi).
  rewrite nth_error_map, nth_error_seq.
  destruct (Nat.ltb_spec i points) as [_ | H]; [reflexivity |].
  unfold points in H. lia.
Qed.



Lemma cos_inside_poles (x : R) :
  (-90 < x < 90)%R -> (0 < cos (x * PI / 180))%R.
Proof.
  intros [Hlo Hhi]. pose proof PI_RGT_0 as Hpi.
  apply cos_gt_0.
  - apply Rmult_lt_reg_r with (r := (180 / PI)%R).
    + apply Rdiv_lt_0_compat; lra.
    + replace (- (PI / 2) * (180 / PI))%R with (-90)%R by (field; lra).
      replace (x * PI / 180 * (180 / PI))%R with x by (field; lra). exact Hlo.
  - apply Rmult_lt_reg_r with (r := (180 / PI)%R).
    + apply Rdiv_lt_0_compat; lra.
    + replace (PI / 2 * (180 / PI))%R with 90%R by (field; lra).
      replace (x * PI / 180 * (180 / PI))%R with x by (field; lra). exact Hhi.
Qed.

Lemma lonDivisor_finite (x : R) : lonDivisor (JFin x) = JFin (cos (x * PI / 180)).
Proof.
  unfold lonDivisor. fold (radians (JFin x)). rewrite radians_finite. reflexivity.
Qed.

Lemma ring_finite (x y : R) :
  cos (x * PI / 180) <> 0%R -> Forall finite_pair (ring (JFin x) (JFin y)).
Proof.
  intro Hc. rewrite ring_seq. apply Forall_app. split.
  - apply Forall_map, Forall_forall. intros i _.
    rewrite vertex_finite by exact Hc. split; reflexivity.
  - constructor; [| constructor].
    rewrite vertex_finite by exact Hc. split; reflexivity.
Qed.

Lemma theta_0 : theta 0 = 0%R.
Proof. unfold theta. simpl INR. lra. Qed.

Lemma theta_5 : theta 5 = (PI / 2)%R.
Proof.
  unfold theta. rewrite INR_points, INR_IZR_INZ.
  change (IZR (Z.of_nat 5)) with 5%R. lra.
Qed.

Lemma is_zero_true : is_zero 0 = true.
Proof. unfold is_zero. destruct (Req_dec_T 0 0); [reflexivity | contradiction]. Qed.

Lemma is_neg_false (r : R) : (0 <= r)%R -> is_neg r = false.
Proof. intro H. unfold is_neg. destruct (Rlt_dec r 0); [lra | reflexivity]. Qed.

(** At the pole the division is by zero: the longitude offset of vertex
    0 is [0 / 0] and that of vertex 5 is [0.02 / 0]. *)
Lemma lonOffset_at_pole (x : R) :
  cos (x * PI / 180) = 0%R ->
  lonOffset (JFin x) 0 = JNaN /\ lonOffset (JFin x) 5 = JInf false.
Proof.
  intro Hc. rewrite !lonOffset_theta, radians_finite. unfold Math_cos.
  rewrite Hc, theta_0, theta_5, sin_0, sin_PI2. unfold jdiv.
  rewrite is_zero_true. split.
  - replace (2 / 100 * 0)%R with 0%R by lra. now rewrite is_zero_true.
  - rewrite is_zero_false by lra. rewrite is_neg_false by lra. reflexivity.
Qed.

Lemma cos_at_north_pole : cos (90 * PI / 180) = 0%R.
Proof. replace (90 * PI / 180)%R with (PI / 2)%R by lra. apply cos_PI2. Qed.

Lemma cos_at_south_pole : cos (-90 * PI / 180) = 0%R.
Proof.
  replace (-90 * PI / 180)%R with (- (PI / 2))%R by lra.
  rewrite cos_neg. apply cos_PI2.
Qed.





Lemma cos_zero_degrees : cos (0 * PI / 180) <> 0%R.
Proof.
  replace (0 * PI / 180)%R with 0%R by lra. rewrite cos_0. lra.
Qed.


(** C10: the longitude offset is the quotient by the cosine of the
    centre latitude, with no test of the divisor.  For every finite
    centre whose latitude has a non-zero cosine, and so for every
    latitude strictly between -90 and 90 degrees, every pair of the ring
    is a pair of finite numbers.  At latitude 90 and at latitude -90 the
    divisor is zero in exact arithmetic, and the division is still done:
    the offset of vertex 0 is then NaN and that of vertex 5 is
    infinite. *)
Theorem C10_division_by_cosine_unguarded :
  (forall lat i,
     lonOffset lat i
       = jdiv (jmul radius (Math_sin (angle i))) (lonDivisor lat)) /\
  (forall x y, cos (x * PI / 180) <> 0%R ->
     lonDivisor (JFin x) = JFin (cos (x * PI / 180)) /\
     Forall finite_pair (ring (JFin x) (JFin y))) /\
  (forall x y, (-90 < x < 90)%R ->
     cos (x * PI / 180) <> 0%R /\
     Forall finite_pair (ring (JFin x) (JFin y))) /\
  lonDivisor (JFin 90) = JFin 0 /\
  lonDivisor (JFin (-90)) = JFin 0 /\
  (lonOffset (JFin 90) 0 = JNaN /\ lonOffset (JFin 90) 5 = JInf false) /\
  (lonOffset (JFin (-90)) 0 = JNaN /\ lonOffset (JFin (-90)) 5 = JInf false).
Proof.
  split; [reflexivity |].
  split.
  { intros x y Hc. split; [apply lonDivisor_finite | now apply ring_finite]. }
  split.
  { intros x y Hx. pose proof (cos_inside_poles x Hx) as Hpos.
    assert (Hc : cos (x * PI / 180) <> 0%R) by lra.
    split; [exact Hc | now apply ring_finite]. }
  split; [rewrite lonDivisor_finite, cos_at_north_pole; reflexivity |].
  split; [rewrite lonDivisor_finite, cos_at_south_pole; reflexivity |].
  split; apply lonOffset_at_pole;
    [apply cos_at_north_pole | apply cos_at_south_pole].
Qed.

Lemma C10_division_by_cosine_unguarded_witness :
  Forall finite_pair (ring (JFin 0) (JFin 0)).
Proof.
  destruct C10_division_by_cosine_unguarded as (_ & Hfinite & _).
  exact (proj2 (Hfinite 0%R 0%R cos_zero_degrees)).
Defined.

(* ================================================================== *)
(** * Further properties: input stripping *)

Lemma chars_str (l : list ascii) : chars (str l) = l.
Proof. apply list_ascii_of_string_of_list_ascii. Qed.

Lemma str_chars (s : string) : str (chars s) = s.
Proof. apply string_of_list_ascii_of_string. Qed.

Lemma length_chars (s : string) : List.length (chars s) = String.length s.
Proof. induction s as [| c s IH]; simpl; [reflexivity | now rewrite IH]. Qed.

(** X1: [trimZipcode] deletes every letter and nothing else: no letter
    is left in its result, the result is never longer than the input,
    stripping twice is stripping once, and an input is returned unchanged
    exactly when it holds no letter. *)
Theorem trimZipcode_strips_exactly_letters (input : string) :
  no_letters (trimZipcode input) = true /\
  String.length (trimZipcode input) <= String.length input /\
  trimZipcode (trimZipcode input) = trimZipcode input /\
  (trimZipcode input = input <-> no_letters input = true).
Proof.
  unfold trimZipcode, remove_letters, no_letters.
  repeat split.
  - rewrite chars_str. apply forallb_filter.
  - rewrite <- !length_chars, chars_str. apply filter_length_le.
  - rewrite chars_str. f_equal. apply forallb_filter_id, forallb_filter.
  - intro H. rewrite <- H at 1. rewrite chars_str. apply forallb_filter.
  - intro H. rewrite (forallb_filter_id _ _ H). apply str_chars.
Qed.

(* ================================================================== *)
(** * Further properties: what a computation leaves alone *)

Section Keeps.

Variable R : World -> World -> Prop.
Hypothesis R_refl : forall w, R w w.
Hypothesis R_trans : forall w1 w2 w3, R w1 w2 -> R w2 w3 -> R w1 w3.

Lemma keeps_ret {A} (a : A) : keeps R (ret a).
Proof. intro w. apply R_refl. Qed.

Lemma keeps_lift {A} (r : Res A) : keeps R (lift r).
Proof. intro w. apply R_refl. Qed.

Lemma keeps_throw {A} (e : Error) : keeps R (@throw A e).
Proof. intro w. apply R_refl. Qed.

Lemma keeps_get : keeps R get.
Proof. intro w. apply R_refl. Qed.

Lemma keeps_modify (f : World -> World) :
  (forall w, R w (f w)) -> keeps R (modify f).
Proof. intros H w. apply H. Qed.

Lemma keeps_bind {A B} (m : M A) (k : A -> M B) :
  keeps R m -> (forall a, keeps R (k a)) -> keeps R (bind m k).
Proof.
  intros Hm Hk w. unfold bind. specialize (Hm w).
  destruct (m w) as [[a | e] w1]; simpl in *.
  - eapply R_trans; [exact Hm | apply Hk].
  - exact Hm.
Qed.

Lemma keeps_try_catch {A} (m : M A) (h : Error -> M A) :
  keeps R m -> (forall e, keeps R (h e)) -> keeps R (try_catch m h).
Proof.
  intros Hm Hh w. unfold try_catch. specialize (Hm w).
  destruct (m w) as [[a | e] w1]; simpl in *.
  - exact Hm.
  - eapply R_trans; [exact Hm | apply Hh].
Qed.

End Keeps.

Lemma never_throws_ret {A} (a : A) : never_throws (ret a).
Proof. intro w. now exists a. Qed.

Lemma never_throws_modify (f : World -> World) : never_throws (modify f).
Proof. intro w. now exists tt. Qed.

Lemma never_throws_bind {A B} (m : M A) (k : A -> M B) :
  never_throws m -> (forall a, never_throws (k a)) -> never_throws (bind m k).
Proof.
  intros Hm Hk w. unfold bind. destruct (Hm w) as [a Ha].
  destruct (m w) as [[a' | e] w1]; simpl in *; [| discriminate].
  apply Hk.
Qed.

Lemma never_throws_try_catch {A} (m : M A) (h : Error -> M A) :
  (forall e, never_throws (h e)) -> never_throws (try_catch m h).
Proof.
  intros Hh w. unfold try_catch.
  destruct (m w) as [[a | e] w1]; simpl; [now exists a | apply Hh].
Qed.

Lemma batch_frame_refl (w : World) : batch_frame w w.
Proof. repeat split; auto. Qed.

Lemma batch_frame_trans (w1 w2 w3 : World) :
  batch_frame w1 w2 -> batch_frame w2 w3 -> batch_frame w1 w3.
Proof.
  intros (A1 & A2 & A3) (B1 & B2 & B3). unfold batch_frame.
  rewrite B1, B2, A1, A2, B3, A3. repeat split; auto.
Qed.

Lemma search_frame_refl (w : World) : search_frame w w.
Proof. repeat split; auto. Qed.

Lemma search_frame_trans (w1 w2 w3 : World) :
  search_frame w1 w2 -> search_frame w2 w3 -> search_frame w1 w3.
Proof.
  intros (A1 & A2 & A3) (B1 & B2 & B3). unfold search_frame.
  rewrite B1, B2, A1, A2, B3, A3. repeat split; auto.
Qed.

Lemma keeps_resolver (R : World -> World -> Prop) (net : Net) (zipcode : string) :
  (forall w t, R w (logs t w)) -> keeps R (fetchZipcodeGeometry net zipcode).
Proof.
  intros H w.
  destruct (fetchZipcodeGeometry_cases net zipcode w) as (r & t & E & _ & _).
  rewrite E. apply H.
Qed.

Lemma batch_frame_logs (w : World) (t : list Event) : batch_frame w (logs t w).
Proof.
  destruct (logs_frame t w) as (_ & H2 & H3 & H4).
  unfold batch_frame. rewrite H2, H3, H4. repeat split; auto.
Qed.

Lemma search_frame_logs (w : World) (t : list Event) : search_frame w (logs t w).
Proof.
  destruct (logs_frame t w) as (H1 & _ & H3 & H4).
  unfold search_frame. rewrite H1, H3, H4. repeat split; auto.
Qed.

Lemma keeps_emit (R : World -> World -> Prop) (e : Event) :
  (forall w t, R w (logs t w)) -> keeps R (emit e).
Proof. intros H w. apply (H w [e]). Qed.

Lemma batch_frame_status (text : string) (w : World) :
  batch_frame w (status_shown text w).
Proof.
  unfold batch_frame, status_shown.
  destruct (statusDiv w) eqn:E; simpl; rewrite ?E; repeat split; auto;
    discriminate.
Qed.

Ltac batch_step :=
  first
    [ apply keeps_resolver; exact batch_frame_logs
    | apply keeps_emit; exact batch_frame_logs
    | apply (keeps_bind _ batch_frame_trans)
    | apply (keeps_try_catch _ batch_frame_trans)
    | apply (keeps_ret _ batch_frame_refl)
    | apply (keeps_throw _ batch_frame_refl)
    | apply keeps_modify; intro; apply batch_frame_status
    | intro ].

Lemma plotZipcode_batch_frame
  (config : Config) (host : Host) (geojson : option Feature) :
  keeps batch_frame (plotZipcode config host geojson).
Proof.
  unfold plotZipcode. destruct geojson as [f |]; [| batch_step].
  destruct (geoJSON_accepts host f); [| batch_step].
  apply keeps_modify. intro w. repeat split; auto.
Qed.

Lemma plot_one_batch_frame
  (config : Config) (net : Net) (host : Host) (zipcode : string) (s f : nat) :
  keeps batch_frame (plot_one config net host zipcode s f).
Proof.
  unfold plot_one, set_status, console_warn, console_error.
  batch_step; [| intros _; repeat batch_step].
  batch_step; [batch_step | intros _].
  batch_step; [batch_step | intro found].
  batch_step; [| intro counts; repeat batch_step].
  destruct found as [g |]; [| repeat batch_step].
  batch_step; [apply plotZipcode_batch_frame | intros _; batch_step].
Qed.

Lemma plot_loop_batch_frame
  (config : Config) (net : Net) (host : Host) (codes : list string) :
  forall s f, keeps batch_frame (plot_loop config net host codes s f).
Proof.
  induction codes as [| zipcode rest IH]; intros s f; simpl.
  - batch_step.
  - batch_step; [apply plot_one_batch_frame | intro counts; apply IH].
Qed.

Lemma plotAllZipcodes_batch_frame (config : Config) (net : Net) (host : Host) :
  keeps batch_frame (plotAllZipcodes config net host).
Proof.
  unfold plotAllZipcodes, set_status.
  batch_step; [batch_step | intros _].
  batch_step; [apply plot_loop_batch_frame | intro counts].
  batch_step; [batch_step | intros _].
  batch_step; [apply (keeps_get _ batch_frame_refl) | intro w].
  batch_step; [| intros _; batch_step].
  destruct (0 <? _)%nat; batch_step.
Qed.

(* ================================================================== *)
(** * Further properties: the batch plotter *)



(** X3: a batch run leaves the search side of the page alone: the
    search overlay group and the text of the result element are what
    they were, and a status element is neither created nor removed. *)
Theorem plotAllZipcodes_leaves_search_alone
  (config : Config) (net : Net) (host : Host) (w : World) :
  searchLayerGroup (run (plotAllZipcodes config net host) w)
    = searchLayerGroup w /\
  resultDiv (run (plotAllZipcodes config net host) w) = resultDiv w /\
  (statusDiv (run (plotAllZipcodes config net host) w) = None
   <-> statusDiv w = None).
Proof. apply (plotAllZipcodes_batch_frame config net host w). Qed.

(** X4: when the page has a status element, a batch run ends with the
    summary of the counters it returns in that element: the number of
    codes loaded, followed by the number of failed ones when there are
    any. *)
Theorem plotAllZipcodes_reports_its_counters
  (config : Config) (net : Net) (host : Host) (w : World) (s f : nat) :
  statusDiv w <> None ->
  result (plotAllZipcodes config net host) w = Ok (s, f) ->
  statusDiv (run (plotAllZipcodes config net host) w)
    = Some ("Loaded " ++ nat_text s ++ " zip codes successfully"
            ++ (if (0 <? f)%nat then ", " ++ nat_text f ++ " failed" else "")).
Proof.
  intros Hs. unfold result, run, plotAllZipcodes, bind, set_status, modify, get.
  fold (status_shown "Loading zip codes..." w).
  set (w0 := status_shown "Loading zip codes..." w).
  assert (H0 : statusDiv w0 <> None).
  { destruct (batch_frame_status "Loading zip codes..." w) as (_ & _ & H).
    fold w0 in H. tauto. }
  pose proof (plot_loop_batch_frame config net host (zipcodes config) 0 0 w0)
    as (_ & _ & H1).
  destruct (plot_loop_cases config net host (zipcodes config) 0 0 w0)
    as (steps & w1 & _ & E & _).
  rewrite E in *. cbn [snd] in H1.
  assert (Hw1 : statusDiv w1 <> None) by tauto.
  cbn [fst snd].
  destruct (statusDiv w1) as [old |] eqn:Es; [| contradiction].
  destruct (0 <? List.length _)%nat; cbn [fst snd]; intro Hr;
    injection Hr as Hr; rewrite Hr; reflexivity.
Qed.

Lemma plotAllZipcodes_reports_its_counters_witness :
  statusDiv (run (plotAllZipcodes config_1951_2011 net_mixed lenient_host)
                 fresh_world)
    = Some ("Loaded " ++ nat_text 2 ++ " zip codes successfully"
            ++ (if (0 <? 0)%nat then ", " ++ nat_text 0 ++ " failed" else "")).
Proof.
  apply (plotAllZipcodes_reports_its_counters
           config_1951_2011 net_mixed lenient_host fresh_world 2 0).
  - discriminate.
  - apply batch_1951_2011.
Defined.


(* ================================================================== *)
(** * Further properties: the centroid text *)

Lemma chars_app (s t : string) : chars (s ++ t) = (chars s ++ chars t)%list.
Proof. induction s as [| c s IH]; simpl; [reflexivity | now rewrite IH]. Qed.

Lemma take_drop_run (l rest : list ascii) :
  forallb not_rparen l = true ->
  take_while not_rparen (l ++ ")"%char :: rest) = l /\
  drop_while not_rparen (l ++ ")"%char :: rest) = ")"%char :: rest.
Proof.
  induction l as [| c l IH]; simpl; intro H.
  - split; reflexivity.
  - apply andb_prop in H. destruct H as [Hc Hl]. rewrite Hc.
    destruct (IH Hl) as [-> ->]. split; reflexivity.
Qed.

(** The pattern at the head of [POINT(g)] captures [g], when [g] is not
    empty and holds no closing parenthesis. *)
Lemma match_POINT_exact (g : string) :
  g <> "" -> forallb not_rparen (chars g) = true ->
  match_POINT ("POINT(" ++ g ++ ")") = Some g.
Proof.
  intros Hne Hg. unfold match_POINT.
  assert (E : point_search (chars ("POINT(" ++ g ++ ")")) = Some (chars g)).
  { rewrite !chars_app.
    change (chars "POINT(") with ["P"; "O"; "I"; "N"; "T"; "("]%char.
    change (chars ")") with [")"%char].
    cbn [app]. unfold point_search, point_here.
    change (chars "POINT(") with ["P"; "O"; "I"; "N"; "T"; "("]%char.
    cbn [strip_prefix Ascii.eqb Bool.eqb].
    destruct (take_drop_run (chars g) [] Hg) as [-> ->].
    destruct (chars g) as [| c l] eqn:Ec; [| reflexivity].
    exfalso. apply Hne. rewrite <- (str_chars g), Ec. reflexivity. }
  rewrite E. simpl. now rewrite str_chars.
Qed.

Lemma split_chars_run (l cur rest : list ascii) :
  forallb (fun c => negb (Ascii.eqb c " "%char)) l = true ->
  split_chars " "%char cur (l ++ rest)
    = split_chars " "%char (rev l ++ cur) rest.
Proof.
  revert cur. induction l as [| c l IH]; simpl; intros cur H; [reflexivity |].
  apply andb_prop in H. destruct H as [Hc Hl].
  apply negb_true_iff in Hc. rewrite Hc, IH by exact Hl.
  now rewrite <- app_assoc.
Qed.

Lemma plain_parts (s : string) :
  plain s = true ->
  forallb (fun c => negb (Ascii.eqb c " "%char)) (chars s) = true /\
  forallb not_rparen (chars s) = true.
Proof.
  unfold plain. induction (chars s) as [| c l IH]; simpl; [auto |].
  intro H. apply andb_prop in H. destruct H as [Hc Hl].
  apply andb_prop in Hc. destruct Hc as [H1 H2].
  destruct (IH Hl) as [-> ->]. rewrite H1, H2. auto.
Qed.

(** Splitting [lon lat] at the space gives the two texts back. *)
Lemma split_space_pair (lon lat : string) :
  plain lon = true -> plain lat = true ->
  split_space (lon ++ " " ++ lat) = [lon; lat].
Proof.
  intros Hlon Hlat.
  destruct (plain_parts lon Hlon) as [Slon _].
  destruct (plain_parts lat Hlat) as [Slat _].
  unfold split_space. rewrite !chars_app.
  change (chars " ") with [" "%char]. cbn [app].
  rewrite split_chars_run by exact Slon. rewrite app_nil_r.
  cbn [split_chars Ascii.eqb Bool.eqb].
  rewrite <- (app_nil_r (chars lat)).
  rewrite split_chars_run by exact Slat. rewrite app_nil_r.
  cbn [split_chars map]. rewrite !rev_involutive, !str_chars. reflexivity.
Qed.

Lemma point_text_match (lon lat : string) :
  plain lon = true -> plain lat = true ->
  match_POINT (point_text lon lat) = Some (lon ++ " " ++ lat).
Proof.
  intros Hlon Hlat. unfold point_text.
  replace (lon ++ " " ++ lat ++ ")") with ((lon ++ " " ++ lat) ++ ")")
    by (rewrite <- (str_chars ((lon ++ " " ++ lat) ++ ")")),
          <- (str_chars (lon ++ " " ++ lat ++ ")")), !chars_app,
          <- !app_assoc; reflexivity).
  apply match_POINT_exact.
  - destruct lon; discriminate.
  - destruct (plain_parts lon Hlon) as [_ Rlon].
    destruct (plain_parts lat Hlat) as [_ Rlat].
    rewrite !chars_app, !forallb_app, Rlon, Rlat. reflexivity.
Qed.

Lemma primary_outcome_point_text
  (data : jsval) (lon lat zipcode : string) :
  plain lon = true -> plain lat = true ->
  carries_centroid data (point_text lon lat) ->
  primary_outcome data zipcode =
  if isNaN_num (Number lat) || isNaN_num (Number lon) then Ok None
  else Ok (Some (createApproximatePolygon (Number lat) (Number lon) zipcode)).
Proof.
  intros Hlon Hlat Hc.
  rewrite (primary_outcome_carried _ _ _ Hc).
  rewrite point_text_match by assumption.
  cbv zeta. rewrite split_space_pair by assumption.
  cbn [map nth_error isNaN String.eqb point_text append Ascii.eqb Bool.eqb].
  destruct (isNaN_num (Number lat)), (isNaN_num (Number lon)); reflexivity.
Qed.

(** X6: in the centroid text [POINT(<lon> <lat>)] the first number is
    the longitude and the second the latitude: when neither converts to
    NaN the primary step hands the approximator the second as [lat] and
    the first as [lon]; when one of them does, it falls through. *)
Theorem centroid_text_is_lon_then_lat
  (data : jsval) (lon lat zipcode : string) :
  plain lon = true -> plain lat = true ->
  carries_centroid data (point_text lon lat) ->
  primary_outcome data zipcode =
  if isNaN_num (Number lat) || isNaN_num (Number lon) then Ok None
  else Ok (Some (createApproximatePolygon (Number lat) (Number lon) zipcode)).
Proof. exact (primary_outcome_point_text data lon lat zipcode). Qed.

Lemma centroid_text_is_lon_then_lat_witness :
  primary_outcome (centroid_body (point_text "4.9" "52.3")) "1951" =
  if isNaN_num (Number "52.3") || isNaN_num (Number "4.9") then Ok None
  else Ok (Some (createApproximatePolygon (Number "52.3") (Number "4.9") "1951")).
Proof.
  apply (centroid_text_is_lon_then_lat
           (centroid_body (point_text "4.9" "52.3")) "4.9" "52.3" "1951").
  - reflexivity.
  - reflexivity.
  - apply centroid_body_carries.
Defined.

(** X7: a coordinate left empty is not rejected: the empty text converts
    to 0, so [POINT( <lat>)] is approximated at longitude 0 and
    [POINT(<lon> )] at latitude 0, whenever the other number converts. *)
Theorem empty_coordinate_is_read_as_zero
  (data : jsval) (other zipcode : string) :
  plain other = true ->
  isNaN_num (Number other) = false ->
  (carries_centroid data (point_text "" other) ->
   primary_outcome data zipcode
     = Ok (Some (createApproximatePolygon (Number other) (JFin 0) zipcode))) /\
  (carries_centroid data (point_text other "") ->
   primary_outcome data zipcode
     = Ok (Some (createApproximatePolygon (JFin 0) (Number other) zipcode))).
Proof.
  intros Hp Hn. split; intro Hc.
  - rewrite (primary_outcome_point_text data "" other zipcode eq_refl Hp Hc).
    change (Number "") with (JFin 0). rewrite Hn. reflexivity.
  - rewrite (primary_outcome_point_text data other "" zipcode Hp eq_refl Hc).
    change (Number "") with (JFin 0). rewrite Hn. reflexivity.
Qed.

Lemma empty_coordinate_is_read_as_zero_witness :
  primary_outcome (centroid_body (point_text "" "52.3")) "1951"
    = Ok (Some (createApproximatePolygon (Number "52.3") (JFin 0) "1951")).
Proof.
  apply (empty_coordinate_is_read_as_zero
           (centroid_body (point_text "" "52.3")) "52.3" "1951").
  - reflexivity.
  - reflexivity.
  - apply centroid_body_carries.
Defined.

(* ================================================================== *)
(** * Further properties: the resolver's requests *)

Lemma fetchZipcodeGeometry_shapes (net : Net) (zipcode : string) (w : World) :
  exists r t,
    fetchZipcodeGeometry net zipcode w = (Ok r, logs t w) /\
    (t = [EFetch PDOK zipcode] \/
     t = [EFetch PDOK zipcode; fetch_error_log zipcode] \/
     t = [EFetch PDOK zipcode; EFetch Nominatim zipcode] \/
     t = [EFetch PDOK zipcode; EFetch Nominatim zipcode;
          nominatim_error_log zipcode]).
Proof.
  rewrite fetchZipcodeGeometry_unfold. cbv zeta.
  destruct (net (List.length (trace w)) PDOK zipcode) as [| | data].
  1,2: exists None, [EFetch PDOK zipcode; fetch_error_log zipcode];
       split; [reflexivity | right; left; reflexivity].
  destruct (primary_outcome data zipcode) as [[f |] | e].
  - exists (Some f), [EFetch PDOK zipcode].
    split; [reflexivity | left; reflexivity].
  - destruct (fetchFromNominatim_cases net zipcode
                (log (EFetch PDOK zipcode) w)) as (r & t & E & Ht & _).
    exists r, (EFetch PDOK zipcode :: EFetch Nominatim zipcode :: t).
    split; [exact E |].
    destruct Ht as [-> | ->]; [right; right; left | right; right; right];
      reflexivity.
  - exists None, [EFetch PDOK zipcode; fetch_error_log zipcode].
    split; [reflexivity | right; left; reflexivity].
Qed.

(** X8: one resolution sends at most one request to each service, the
    primary first, and never retries; besides its requests it writes at
    most one error line to the console, and it does not touch the
    overlay groups or the text elements. *)
Theorem resolver_requests_each_service_at_most_once
  (net : Net) (zipcode : string) (w : World) :
  same_page w (run (fetchZipcodeGeometry net zipcode) w) /\
  (new_events (fetchZipcodeGeometry net zipcode) w = [EFetch PDOK zipcode] \/
   new_events (fetchZipcodeGeometry net zipcode) w
     = [EFetch PDOK zipcode; fetch_error_log zipcode] \/
   new_events (fetchZipcodeGeometry net zipcode) w
     = [EFetch PDOK zipcode; EFetch Nominatim zipcode] \/
   new_events (fetchZipcodeGeometry net zipcode) w
     = [EFetch PDOK zipcode; EFetch Nominatim zipcode;
        nominatim_error_log zipcode]).
Proof.
  destruct (fetchZipcodeGeometry_shapes net zipcode w) as (r & t & E & Ht).
  split.
  - unfold run. rewrite E. apply same_page_logs.
  - rewrite (new_events_logs _ _ _ _ E). exact Ht.
Qed.

(** X9: the fallback step never throws, and it returns a feature exactly
    when the request succeeds, its body parses, the body has a positive
    length and its first element has a [geojson] field that is present;
    the feature then carries the input code and that field, unchanged,
    as its geometry.  In every other case it returns absent. *)
Theorem fetchFromNominatim_feature_iff
  (net : Net) (zipcode : string) (w : World) :
  (exists r, result (fetchFromNominatim net zipcode) w = Ok r) /\
  (forall f,
     result (fetchFromNominatim net zipcode) w = Ok (Some f) <->
     exists data g,
       net (List.length (trace w)) Nominatim zipcode = Json data /\
       offers_geometry data g /\
       f = {| ftype := "Feature"; postcode := zipcode; geometry := g |}).
Proof.
  split.
  { destruct (fetchFromNominatim_cases net zipcode w) as (r & t & E & _).
    exists r. unfold result. now rewrite E. }
  intro f. unfold result, fetchFromNominatim, try_catch, bind, request, lift, ret,
    offers_geometry.
  destruct (net (List.length (trace w)) Nominatim zipcode) as [| | data].
  1,2: split; [discriminate | intros (d & g & H & _); discriminate].
  destruct (get_prop data "length") as [len | e] eqn:El.
  2: { split; [discriminate |].
       intros (d & g & H & (l & fi & H1 & _) & _).
       injection H as <-. rewrite El in H1. discriminate. }
  cbv beta iota.
  destruct (js_gt0 len) eqn:Eg.
  2: { split; [discriminate |].
       intros (d & g & H & (l & fi & H1 & H2 & _) & _).
       injection H as <-. rewrite El in H1. injection H1 as <-.
       rewrite Eg in H2. discriminate. }
  destruct (get_index data 0) as [first | e] eqn:Ei.
  2: { split; [discriminate |].
       intros (d & g & H & (l & fi & _ & _ & H3 & _) & _).
       injection H as <-. rewrite Ei in H3. discriminate. }
  cbv beta iota.
  destruct (get_prop first "geojson") as [g | e] eqn:Ej.
  2: { split; [discriminate |].
       intros (d & g & H & (l & fi & _ & _ & H3 & H4 & _) & _).
       injection H as <-. rewrite Ei in H3. injection H3 as <-.
       rewrite Ej in H4. discriminate. }
  cbv beta iota.
  destruct (truthy g) eqn:Et.
  - split.
    + intro H. injection H as <-. exists data, g.
      split; [reflexivity |]. split; [| reflexivity].
      exists len, first. auto.
    + intros (d & g' & H & (l & fi & _ & _ & H3 & H4 & _) & ->).
      injection H as <-. rewrite Ei in H3. injection H3 as <-.
      rewrite Ej in H4. injection H4 as <-. reflexivity.
  - split; [discriminate |].
    intros (d & g' & H & (l & fi & _ & _ & H3 & H4 & H5) & _).
    injection H as <-. rewrite Ei in H3. injection H3 as <-.
    rewrite Ej in H4. injection H4 as <-. rewrite Et in H5. discriminate.
Qed.

Lemma fetchFromNominatim_offered
  (net : Net) (zipcode : string) (w : World) (body g : jsval) :
  net (List.length (trace w)) Nominatim zipcode = Json body ->
  offers_geometry body g ->
  fetchFromNominatim net zipcode w
    = (Ok (Some {| ftype := "Feature"; postcode := zipcode; geometry := g |}),
       log (EFetch Nominatim zipcode) w).
Proof.
  intros Hnet (len & first & H1 & H2 & H3 & H4 & H5).
  unfold fetchFromNominatim, try_catch, bind, request, lift, ret.
  rewrite Hnet, H1. cbv beta iota. rewrite H2, H3. cbv beta iota.
  rewrite H4. cbv beta iota. rewrite H5. reflexivity.
Qed.

Lemma trace_length_log (e : Event) (w : World) :
  List.length (trace (log e w)) = S (List.length (trace w)).
Proof. simpl. rewrite length_app. simpl. apply Nat.add_1_r. Qed.

(** X10: the primary service is preferred: when its body yields a
    feature, the resolver returns that feature after its single request
    and the secondary service is not contacted, whatever it would have
    answered. *)
Theorem resolver_prefers_primary
  (net : Net) (zipcode : string) (w : World) (data : jsval) (f : Feature) :
  net (List.length (trace w)) PDOK zipcode = Json data ->
  primary_outcome data zipcode = Ok (Some f) ->
  fetchZipcodeGeometry net zipcode w
    = (Ok (Some f), logs [EFetch PDOK zipcode] w) /\
  ~ attempts_fallback net zipcode w.
Proof.
  intros Hnet Hp.
  assert (E : fetchZipcodeGeometry net zipcode w
              = (Ok (Some f), logs [EFetch PDOK zipcode] w)).
  { rewrite fetchZipcodeGeometry_unfold. cbv zeta. rewrite Hnet, Hp.
    reflexivity. }
  split; [exact E |].
  unfold attempts_fallback. rewrite (new_events_logs _ _ _ _ E).
  simpl. intros [H | []]. discriminate.
Qed.

Lemma resolver_prefers_primary_witness :
  fetchZipcodeGeometry net_mixed "1951" fresh_world
    = (Ok (Some (centroid_feature "1951")),
       logs [EFetch PDOK "1951"] fresh_world) /\
  ~ attempts_fallback net_mixed "1951" fresh_world.
Proof.
  apply (resolver_prefers_primary net_mixed "1951" fresh_world
           (centroid_body "POINT(4.9 52.3)") (centroid_feature "1951")).
  - reflexivity.
  - rewrite (primary_outcome_carried _ _ _ (centroid_body_carries _)).
    reflexivity.
Defined.

(** X11: when the primary step completes without a feature, the
    resolver asks the secondary service next, and a geometry offered
    there is returned verbatim as the geometry of a feature for the input
    code. *)
Theorem resolver_falls_back_to_secondary_geometry
  (net : Net) (zipcode : string) (w : World) (data body g : jsval) :
  net (List.length (trace w)) PDOK zipcode = Json data ->
  primary_outcome data zipcode = Ok None ->
  net (S (List.length (trace w))) Nominatim zipcode = Json body ->
  offers_geometry body g ->
  fetchZipcodeGeometry net zipcode w
    = (Ok (Some {| ftype := "Feature"; postcode := zipcode; geometry := g |}),
       logs [EFetch PDOK zipcode; EFetch Nominatim zipcode] w).
Proof.
  intros Hnet Hp Hnom Hg.
  rewrite fetchZipcodeGeometry_unfold. cbv zeta. rewrite Hnet, Hp.
  apply fetchFromNominatim_offered with (body := body); [| exact Hg].
  rewrite trace_length_log. exact Hnom.
Qed.

Lemma polygon_offered :
  offers_geometry (VArr [VObj [("geojson", polygon_geometry)]]) polygon_geometry.
Proof.
  exists (VNum (of_nat 1)), (VObj [("geojson", polygon_geometry)]).
  split; [reflexivity |]. split; [apply js_gt0_length |]. repeat split.
Qed.

Lemma resolver_falls_back_to_secondary_geometry_witness :
  fetchZipcodeGeometry net_mixed "2011" fresh_world
    = (Ok (Some {| ftype := "Feature"; postcode := "2011";
                   geometry := polygon_geometry |}),
       logs [EFetch PDOK "2011"; EFetch Nominatim "2011"] fresh_world).
Proof.
  apply (resolver_falls_back_to_secondary_geometry net_mixed "2011" fresh_world
           (VObj []) (VArr [VObj [("geojson", polygon_geometry)]])
           polygon_geometry).
  - reflexivity.
  - reflexivity.
  - reflexivity.
  - exact polygon_offered.
Defined.

(* ================================================================== *)
(** * Further properties: the shape of the approximate polygon *)

Lemma vertex_on_circle (x y : R) (i : nat) :
  cos (x * PI / 180) <> 0%R ->
  on_circle x y (snd (vertex (JFin x) (JFin y) i),
                 fst (vertex (JFin x) (JFin y) i)).
Proof.
  intro Hc. rewrite vertex_finite by exact Hc. cbn [fst snd].
  exists (y + 2 / 100 * sin (theta i) / cos (x * PI / 180))%R,
    (x + 2 / 100 * cos (theta i))%R.
  split; [reflexivity |]. split.
  - pose proof (sin2_cos2 (theta i)) as H. unfold Rsqr in H.
    replace ((y + 2 / 100 * sin (theta i) / cos (x * PI / 180) - y)
             * cos (x * PI / 180))%R
      with (2 / 100 * sin (theta i))%R by (field; exact Hc).
    replace (x + 2 / 100 * cos (theta i) - x)%R
      with (2 / 100 * cos (theta i))%R by ring.
    replace (2 / 100 * cos (theta i) * (2 / 100 * cos (theta i))
             + 2 / 100 * sin (theta i) * (2 / 100 * sin (theta i)))%R
      with (2 / 100 * (2 / 100)
            * (sin (theta i) * sin (theta i) + cos (theta i) * cos (theta i)))%R
      by ring.
    rewrite H. ring.
  - pose proof (COS_bound (theta i)) as [H1 H2]. lra.
Qed.

(** X12: for a finite centre whose latitude has a non-zero cosine, every
    pair of the ring lies on the circle of radius 0.02 degrees around the
    centre, measured with the longitude difference multiplied by the
    cosine of the centre latitude; its latitude is within 0.02 degrees of
    the centre's. *)
Theorem ring_lies_on_the_corrected_circle (x y : R) :
  cos (x * PI / 180) <> 0%R ->
  Forall (on_circle x y) (ring (JFin x) (JFin y)).
Proof.
  intro Hc. rewrite ring_seq. apply Forall_app. split.
  - apply Forall_map, Forall_forall. intros i _. now apply vertex_on_circle.
  - constructor; [now apply vertex_on_circle | constructor].
Qed.

Lemma ring_lies_on_the_corrected_circle_witness :
  Forall (on_circle 0 0) (ring (JFin 0) (JFin 0)).
Proof.
  apply (ring_lies_on_the_corrected_circle 0 0). exact cos_zero_degrees.
Defined.

Lemma theta_10 : theta 10 = PI.
Proof.
  unfold theta. rewrite INR_points, INR_IZR_INZ.
  change (IZR (Z.of_nat 10)) with 10%R. lra.
Qed.

Lemma theta_15 : theta 15 = (3 * (PI / 2))%R.
Proof.
  unfold theta. rewrite INR_points, INR_IZR_INZ.
  change (IZR (Z.of_nat 15)) with 15%R. lra.
Qed.

Lemma ring_pair_finite (x y : R) (i : nat) :
  (i < 20)%nat -> cos (x * PI / 180) <> 0%R ->
  nth_error (ring (JFin x) (JFin y)) i
    = Some (JFin (y + 2 / 100 * sin (theta i) / cos (x * PI / 180)),
            JFin (x + 2 / 100 * cos (theta i))).
Proof.
  intros Hi Hc. rewrite ring_vertex by exact Hi.
  change (jadd (JFin y) (lonOffset (JFin x) i), jadd (JFin x) (latOffset i))
    with (snd (vertex (JFin x) (JFin y) i), fst (vertex (JFin x) (JFin y) i)).
  rewrite vertex_finite by exact Hc. reflexivity.
Qed.

(** X13: the ring starts due north of the centre and runs through east,
    south and west: for a finite centre whose latitude has a non-zero
    cosine, pair 0 is 0.02 degrees of latitude above the centre, pair 10
    as much below it, and pairs 5 and 15 are at the centre's latitude,
    0.02 degrees divided by that cosine to the east and to the west. *)
Theorem ring_cardinal_points (x y : R) :
  cos (x * PI / 180) <> 0%R ->
  nth_error (ring (JFin x) (JFin y)) 0 = Some (JFin y, JFin (x + 2 / 100)) /\
  nth_error (ring (JFin x) (JFin y)) 5
    = Some (JFin (y + 2 / 100 / cos (x * PI / 180)), JFin x) /\
  nth_error (ring (JFin x) (JFin y)) 10 = Some (JFin y, JFin (x - 2 / 100)) /\
  nth_error (ring (JFin x) (JFin y)) 15
    = Some (JFin (y - 2 / 100 / cos (x * PI / 180)), JFin x).
Proof.
  intro Hc.
  rewrite !ring_pair_finite by (lia || exact Hc).
  rewrite theta_0, theta_5, theta_10, theta_15.
  rewrite sin_0, cos_0, sin_PI2, cos_PI2, sin_PI, cos_PI, sin_3PI2, cos_3PI2.
  repeat split; apply f_equal; apply f_equal2; apply f_equal;
    try (field; exact Hc); ring.
Qed.

Lemma ring_cardinal_points_witness :
  nth_error (ring (JFin 0) (JFin 0)) 0 = Some (JFin 0, JFin (0 + 2 / 100)) /\
  nth_error (ring (JFin 0) (JFin 0)) 5
    = Some (JFin (0 + 2 / 100 / cos (0 * PI / 180)), JFin 0) /\
  nth_error (ring (JFin 0) (JFin 0)) 10 = Some (JFin 0, JFin (0 - 2 / 100)) /\
  nth_error (ring (JFin 0) (JFin 0)) 15
    = Some (JFin (0 - 2 / 100 / cos (0 * PI / 180)), JFin 0).
Proof.
  apply (ring_cardinal_points 0 0). exact cos_zero_degrees.
Defined.

(* ================================================================== *)
(** * Further properties: the search controller *)

Section Keeps2.

Variables R1 R2 R3 : World -> World -> Prop.
Hypothesis compose : forall w1 w2 w3, R1 w1 w2 -> R2 w2 w3 -> R3 w1 w3.
Hypothesis weaken : forall w1 w2, R1 w1 w2 -> R3 w1 w2.

Lemma keeps_bind2 {A B} (m : M A) (k : A -> M B) :
  keeps R1 m -> (forall a, keeps R2 (k a)) -> keeps R3 (bind m k).
Proof.
  intros Hm Hk w. unfold bind. specialize (Hm w).
  destruct (m w) as [[a | e] w1]; simpl in *.
  - eapply compose; [exact Hm | apply Hk].
  - apply weaken. exact Hm.
Qed.

Lemma keeps_try_catch2 {A} (m : M A) (h : Error -> M A) :
  keeps R1 m -> (forall e, keeps R2 (h e)) -> keeps R3 (try_catch m h).
Proof.
  intros Hm Hh w. unfold try_catch. specialize (Hm w).
  destruct (m w) as [[a | e] w1]; simpl in *.
  - apply weaken. exact Hm.
  - eapply compose; [exact Hm | apply Hh].
Qed.

End Keeps2.

Lemma search_same_refl (w : World) : search_same w w.
Proof. reflexivity. Qed.

Lemma search_same_trans (w1 w2 w3 : World) :
  search_same w1 w2 -> search_same w2 w3 -> search_same w1 w3.
Proof. unfold search_same. congruence. Qed.

Lemma search_same_logs (w : World) (t : list Event) : search_same w (logs t w).
Proof. apply (logs_frame t w). Qed.

Lemma one_more_then_same (w1 w2 w3 : World) :
  search_one_more w1 w2 -> search_same w2 w3 -> search_one_more w1 w3.
Proof.
  unfold search_one_more, search_same. intros [H | [l H]] ->; rewrite H; eauto.
Qed.

Lemma same_then_one_more (w1 w2 w3 : World) :
  search_same w1 w2 -> search_one_more w2 w3 -> search_one_more w1 w3.
Proof.
  unfold search_one_more, search_same. intros <- H. exact H.
Qed.

Lemma same_is_one_more (w1 w2 : World) :
  search_same w1 w2 -> search_one_more w1 w2.
Proof. intro H. left. exact H. Qed.

Lemma one_more_is_one_more (w1 w2 : World) :
  search_one_more w1 w2 -> search_one_more w1 w2.
Proof. auto. Qed.

Lemma set_result_search_same (x : ResultText) : keeps search_same (set_result x).
Proof. apply keeps_modify. reflexivity. Qed.

Lemma zoomToZipcode_search_same (net : Net) (zipcode : string) :
  keeps search_same (zoomToZipcode net zipcode).
Proof. intro w. apply (zoomToZipcode_frame net zipcode w). Qed.

Lemma plotZipcodeWithStyle_one_more
  (net : Net) (host : Host) (zipcode colour : string) (isPolluted : bool) :
  keeps search_one_more (plotZipcodeWithStyle net host zipcode colour isPolluted).
Proof.
  unfold plotZipcodeWithStyle.
  apply (keeps_bind2 search_same search_one_more search_one_more
           same_then_one_more same_is_one_more).
  - apply keeps_resolver. exact search_same_logs.
  - intros [g |]; [| intro w; left; reflexivity].
    destruct (geoJSON_accepts host g); intro w; [right | left; reflexivity].
    eexists. reflexivity.
Qed.

Lemma styleAndZoom_one_more
  (config : Config) (net : Net) (host : Host) (zipcode : string) :
  keeps search_one_more (styleAndZoom config net host zipcode).
Proof.
  unfold styleAndZoom.
  apply (keeps_try_catch2 search_one_more search_same search_one_more
           one_more_then_same one_more_is_one_more).
  - apply (keeps_bind2 search_one_more search_same search_one_more
             one_more_then_same one_more_is_one_more).
    + destruct (includes config zipcode);
        apply (keeps_bind2 search_one_more search_same search_one_more
                 one_more_then_same one_more_is_one_more);
        try apply plotZipcodeWithStyle_one_more;
        intros _; apply set_result_search_same.
    + intros _. apply zoomToZipcode_search_same.
  - intros _. apply (keeps_bind _ search_same_trans).
    + apply keeps_emit. exact search_same_logs.
    + intros _. apply set_result_search_same.
Qed.

Ltac search_step :=
  first
    [ apply keeps_resolver; exact search_frame_logs
    | apply keeps_emit; exact search_frame_logs
    | apply (keeps_bind _ search_frame_trans)
    | apply (keeps_try_catch _ search_frame_trans)
    | apply (keeps_ret _ search_frame_refl)
    | apply (keeps_lift _ search_frame_refl)
    | apply (keeps_throw _ search_frame_refl)
    | apply (keeps_get _ search_frame_refl)
    | intro ].

Lemma set_result_search_frame (x : ResultText) (w : World) :
  resultDiv w <> None -> search_frame w (snd (set_result x w)).
Proof.
  intro H. unfold search_frame. simpl. repeat split; auto; try discriminate.
  intro C. contradiction.
Qed.

Lemma clearSearch_search_frame : keeps search_frame clearSearch.
Proof.
  intro w. unfold clearSearch, bind, modify. simpl.
  unfold search_frame. destruct (resultDiv w) eqn:E; simpl; rewrite ?E;
    repeat split; auto; discriminate.
Qed.

(** Writes to the result element, guarded by its presence, as they occur
    in a search that has found the element. *)
Lemma keeps_present_set_result (x : ResultText) :
  keeps (fun w w' => resultDiv w <> None -> search_frame w w') (set_result x).
Proof. intros w H. now apply set_result_search_frame. Qed.

Lemma search_frame_present (w w' : World) :
  search_frame w w' -> resultDiv w <> None -> resultDiv w' <> None.
Proof. intros (_ & _ & H) Hp C. apply Hp. tauto. Qed.

Lemma sfp_refl (w : World) : search_frame_if_present w w.
Proof. intros _. apply search_frame_refl. Qed.

Lemma sfp_trans (w1 w2 w3 : World) :
  search_frame_if_present w1 w2 -> search_frame_if_present w2 w3 ->
  search_frame_if_present w1 w3.
Proof.
  intros H12 H23 Hp. specialize (H12 Hp).
  eapply search_frame_trans; [exact H12 |].
  apply H23. eapply search_frame_present; eauto.
Qed.

Lemma sfp_logs (w : World) (t : list Event) :
  search_frame_if_present w (logs t w).
Proof. intros _. apply search_frame_logs. Qed.

Ltac sfp_step :=
  first
    [ apply keeps_resolver; exact sfp_logs
    | apply keeps_emit; exact sfp_logs
    | apply keeps_present_set_result
    | apply (keeps_bind _ sfp_trans)
    | apply (keeps_try_catch _ sfp_trans)
    | apply (keeps_ret _ sfp_refl)
    | apply (keeps_lift _ sfp_refl)
    | apply (keeps_throw _ sfp_refl)
    | apply (keeps_get _ sfp_refl) ].

Lemma plotZipcodeWithStyle_sfp
  (net : Net) (host : Host) (zipcode colour : string) (isPolluted : bool) :
  keeps search_frame_if_present
    (plotZipcodeWithStyle net host zipcode colour isPolluted).
Proof.
  unfold plotZipcodeWithStyle. sfp_step; [sfp_step |].
  intros [g |]; [| sfp_step].
  destruct (geoJSON_accepts host g); [| sfp_step].
  apply keeps_modify. intros w _. repeat split; auto.
Qed.

Lemma zoomToZipcode_sfp (net : Net) (zipcode : string) :
  keeps search_frame_if_present (zoomToZipcode net zipcode).
Proof.
  unfold zoomToZipcode. sfp_step; [sfp_step |].
  intros [g |]; [| sfp_step].
  destruct (truthy _); [| sfp_step].
  sfp_step; [sfp_step | intro items].
  sfp_step; [sfp_step | intro pairs]. sfp_step.
Qed.

Lemma styleAndZoom_sfp
  (config : Config) (net : Net) (host : Host) (zipcode : string) :
  keeps search_frame_if_present (styleAndZoom config net host zipcode).
Proof.
  unfold styleAndZoom, console_error. sfp_step.
  - sfp_step; [| intros _; apply zoomToZipcode_sfp].
    destruct (includes config zipcode);
      (sfp_step; [apply plotZipcodeWithStyle_sfp | intros _; sfp_step]).
  - intros _. apply (keeps_bind _ sfp_trans);
      [apply keeps_emit; exact sfp_logs
      | intros _; apply keeps_present_set_result].
Qed.

Lemma styleAndZoom_never_throws
  (config : Config) (net : Net) (host : Host) (zipcode : string) :
  never_throws (styleAndZoom config net host zipcode).
Proof.
  unfold styleAndZoom. apply never_throws_try_catch. intros _.
  apply never_throws_bind; [apply never_throws_modify |].
  intros _. apply never_throws_modify.
Qed.

(** X14: a search never throws and stays on its side of the page: the
    bulk overlay group and the status element are what they were.  On a
    page with the result element, the search overlay group holds at most
    one layer afterwards, whatever it held before; on a page without it
    the search changes nothing at all. *)
Theorem searchZipcode_is_contained
  (config : Config) (net : Net) (host : Host) (input : string) (w : World) :
  result (searchZipcode config net host input) w = Ok tt /\
  layerGroup (run (searchZipcode config net host input) w) = layerGroup w /\
  statusDiv (run (searchZipcode config net host input) w) = statusDiv w /\
  (resultDiv w <> None ->
   List.length (searchLayerGroup (run (searchZipcode config net host input) w))
     <= 1) /\
  (resultDiv w = None -> run (searchZipcode config net host input) w = w).
Proof.
  destruct (resultDiv w) as [x |] eqn:Er.
  2: { unfold result, run, searchZipcode, bind, get. rewrite Er. simpl.
       repeat split; auto. intro C. now contradiction C. }
  assert (Hp : resultDiv w <> None) by (rewrite Er; discriminate).
  unfold result, run. rewrite searchZipcode_present by exact Hp.
  set (zipcode := trimZipcode (trim input)).
  set (w1 := snd (clearSearch w)).
  assert (H1 : search_frame w w1) by apply clearSearch_search_frame.
  assert (Hs1 : searchLayerGroup w1 = []).
  { unfold w1, clearSearch, bind, modify. simpl. rewrite Er. reflexivity. }
  assert (Hp1 : resultDiv w1 <> None) by (eapply search_frame_present; eauto).
  change ((clearSearch ;;;
           (if invalid_zipcode zipcode then set_result InvalidInput
            else set_result Checking ;;; styleAndZoom config net host zipcode)) w)
    with ((if invalid_zipcode zipcode then set_result InvalidInput
           else set_result Checking ;;; styleAndZoom config net host zipcode) w1).
  destruct (invalid_zipcode zipcode).
  { destruct H1 as (A & B & _). simpl. rewrite Hs1.
    repeat split; auto. discriminate. }
  set (w2 := snd (set_result Checking w1)).
  change ((set_result Checking ;;; styleAndZoom config net host zipcode) w1)
    with (styleAndZoom config net host zipcode w2).
  assert (H2 : search_frame w1 w2) by (now apply set_result_search_frame).
  assert (Hp2 : resultDiv w2 <> None) by discriminate.
  pose proof (styleAndZoom_sfp config net host zipcode w2 Hp2) as H3.
  pose proof (styleAndZoom_one_more config net host zipcode w2) as H4.
  destruct (styleAndZoom_never_throws config net host zipcode w2) as [[] Hr].
  pose proof (search_frame_trans _ _ _ H1 (search_frame_trans _ _ _ H2 H3))
    as (A & B & _).
  split; [exact Hr |]. split; [exact A |]. split; [exact B |].
  split; [| discriminate].
  intros _. unfold search_one_more in H4.
  change (searchLayerGroup w2) with (searchLayerGroup w1) in H4.
  rewrite Hs1 in H4.
  destruct H4 as [-> | [l ->]]; simpl; lia.
Qed.

Lemma fetch_absent (net : Net) (zipcode : string) (w : World) :
  result (fetchZipcodeGeometry net zipcode) w = Ok None ->
  exists t, fetchZipcodeGeometry net zipcode w
            = (Ok None, logs (EFetch PDOK zipcode :: t) w) /\
            Forall resolver_event t.
Proof.
  intro H. destruct (fetchZipcodeGeometry_cases net zipcode w)
    as (r & t & E & _ & Ft).
  unfold result in H. rewrite E in H. injection H as ->.
  exists t. auto.
Qed.

Lemma resolver_event_no_fitBounds (t : list Event) :
  Forall resolver_event t -> Forall (fun e => is_fitBounds e = false) t.
Proof.
  intro H. eapply Forall_impl; [| exact H].
  intros [] He; try reflexivity; contradiction.
Qed.

(** X15: a code that cannot be resolved is still given a verdict: when
    the stripped value passes validation and every resolution of it
    returns absent, the search draws no layer and issues no fit-bounds
    instruction, and the result element ends with the flagged message if
    the code is in the configured list and with the clear message
    otherwise, not with an error. *)
Theorem unresolved_search_still_reports_membership
  (config : Config) (net : Net) (host : Host) (input : string) (w : World) :
  let zipcode := trimZipcode (trim input) in
  resultDiv w <> None ->
  invalid_zipcode zipcode = false ->
  (forall w', result (fetchZipcodeGeometry net zipcode) w' = Ok None) ->
  resultDiv (run (searchZipcode config net host input) w)
    = Some (outcome_text (includes config zipcode)) /\
  searchLayerGroup (run (searchZipcode config net host input) w) = [] /\
  Forall (fun e => is_fitBounds e = false)
         (new_events (searchZipcode config net host input) w).
Proof.
  intros zipcode Hp Hv Habs.
  unfold run, new_events, run. rewrite searchZipcode_valid by assumption.
  fold zipcode.
  set (w0 := search_started w).
  assert (Ht0 : trace w0 = trace w).
  { unfold w0, search_started, bind, clearSearch, bind, modify, set_result,
      modify. simpl. destruct (resultDiv w); reflexivity. }
  assert (Hs0 : searchLayerGroup w0 = []).
  { unfold w0, search_started, bind, clearSearch, bind, modify, set_result,
      modify. simpl. destruct (resultDiv w); reflexivity. }
  destruct (fetch_absent net zipcode w0 (Habs w0)) as (t1 & E1 & F1).
  set (w1 := with_resultDiv (Some (outcome_text (includes config zipcode)))
               (logs (EFetch PDOK zipcode :: t1) w0)).
  destruct (fetch_absent net zipcode w1 (Habs w1)) as (t2 & E2 & F2).
  assert (E : styleAndZoom config net host zipcode w0
              = (Ok tt, logs (EFetch PDOK zipcode :: t2) w1)).
  { unfold styleAndZoom, try_catch, bind.
    destruct (includes config zipcode); unfold plotZipcodeWithStyle, bind;
      rewrite E1; unfold ret, set_result, modify, zoomToZipcode, bind;
      cbn [outcome_text] in w1; fold w1; rewrite E2; reflexivity. }
  rewrite E. cbn [snd].
  destruct (logs_frame (EFetch PDOK zipcode :: t2) w1) as (_ & Hs & _ & Hr).
  destruct (logs_frame (EFetch PDOK zipcode :: t1) w0) as (_ & Hs' & _ & _).
  split; [rewrite Hr; reflexivity |].
  split; [rewrite Hs; unfold w1, with_resultDiv; cbn [searchLayerGroup];
          rewrite Hs', Hs0; reflexivity |].
  rewrite trace_logs. unfold w1, with_resultDiv. cbn [trace].
  rewrite trace_logs, Ht0.
  rewrite <- app_assoc, skipn_app, Nat.sub_diag, skipn_all. simpl.
  constructor; [reflexivity |]. apply Forall_app. split.
  - now apply resolver_event_no_fitBounds.
  - constructor; [reflexivity | now apply resolver_event_no_fitBounds].
Qed.

Lemma fetch_net_down (zipcode : string) (w : World) :
  result (fetchZipcodeGeometry net_down zipcode) w = Ok None.
Proof. unfold result. rewrite fetchZipcodeGeometry_unfold. reflexivity. Qed.

Lemma unresolved_search_still_reports_membership_witness :
  resultDiv (run (searchZipcode sample_config net_down lenient_host "1951")
                 fresh_world) = Some Polluted /\
  searchLayerGroup (run (searchZipcode sample_config net_down lenient_host "1951")
                        fresh_world) = [] /\
  Forall (fun e => is_fitBounds e = false)
         (new_events (searchZipcode sample_config net_down lenient_host "1951")
                     fresh_world).
Proof.
  apply (unresolved_search_still_reports_membership
           sample_config net_down lenient_host "1951" fresh_world).
  - discriminate.
  - reflexivity.
  - intro w'. apply fetch_net_down.
Defined.

(* ================================================================== *)
(** * Further properties: how often a search resolves *)

Lemma primary_requests_app (t u : list Event) :
  primary_requests (t ++ u) = primary_requests t + primary_requests u.
Proof. unfold primary_requests. now rewrite filter_app, length_app. Qed.

Lemma resolver_requests (net : Net) (zipcode : string) :
  requests 1 (fetchZipcodeGeometry net zipcode).
Proof.
  intro w. destruct (fetchZipcodeGeometry_shapes net zipcode w)
    as (r & t & E & Ht).
  exists t. rewrite E. cbn [snd]. rewrite trace_logs. split; [reflexivity |].
  destruct Ht as [-> | [-> | [-> | ->]]]; reflexivity.
Qed.

Lemma resolver_never_throws (net : Net) (zipcode : string) :
  never_throws (fetchZipcodeGeometry net zipcode).
Proof.
  intro w. destruct (fetchZipcodeGeometry_cases net zipcode w)
    as (r & t & E & _). exists r. now rewrite E.
Qed.

Lemma requests_silent {A} (m : M A) : silent m -> requests 0 m.
Proof. intros H w. exists []. rewrite H, app_nil_r. auto. Qed.

Lemma requests_bind {A B} (n k : nat) (m : M A) (f : A -> M B) :
  requests n m -> never_throws m -> (forall a, requests k (f a)) ->
  requests (n + k) (bind m f).
Proof.
  intros Hm Hok Hf w. unfold bind.
  destruct (Hm w) as (t & Et & Ct). destruct (Hok w) as [a Ha].
  destruct (m w) as [[a' | e] w1]; simpl in *; [| discriminate].
  destruct (Hf a' w1) as (u & Eu & Cu). exists (t ++ u)%list.
  rewrite Eu, Et, app_assoc, primary_requests_app, Ct, Cu. auto.
Qed.

Lemma plotZipcodeWithStyle_requests
  (net : Net) (host : Host) (zipcode colour : string) (isPolluted : bool) :
  requests 1 (plotZipcodeWithStyle net host zipcode colour isPolluted).
Proof.
  unfold plotZipcodeWithStyle.
  apply (requests_bind 1 0); [apply resolver_requests
                            | apply resolver_never_throws |].
  intros [g |]; apply requests_silent.
  - destruct (geoJSON_accepts host g);
      [apply silent_modify; reflexivity | apply silent_throw].
  - apply silent_ret.
Qed.

Lemma plotZipcodeWithStyle_throws
  (net : Net) (host : Host) (zipcode colour : string) (isPolluted : bool)
  (w : World) (e : Error) :
  fst (plotZipcodeWithStyle net host zipcode colour isPolluted w) = Throw e ->
  exists g, geoJSON_accepts host g = false.
Proof.
  unfold plotZipcodeWithStyle, bind.
  destruct (fetchZipcodeGeometry_cases net zipcode w) as (r & t & E & _).
  rewrite E. destruct r as [g |]; [| discriminate].
  destruct (geoJSON_accepts host g) eqn:Hg; [discriminate |].
  intros _. now exists g.
Qed.

Lemma zoomToZipcode_requests (net : Net) (zipcode : string) :
  requests 1 (zoomToZipcode net zipcode).
Proof.
  unfold zoomToZipcode.
  apply (requests_bind 1 0); [apply resolver_requests
                            | apply resolver_never_throws |].
  intros [g |]; [| apply requests_silent, silent_ret].
  destruct (truthy _); [| apply requests_silent, silent_ret].
  intro w. unfold bind, lift.
  destruct (array_items _) as [items | e];
    [| exists []; simpl; rewrite app_nil_r; auto].
  destruct (map_swap items) as [pairs | e];
    [| exists []; simpl; rewrite app_nil_r; auto].
  eexists. split; reflexivity.
Qed.

Lemma requests_bind_silent {A B} (n : nat) (m : M A) (f : A -> M B) :
  requests n m -> (forall a, silent (f a)) -> requests n (bind m f).
Proof.
  intros Hm Hf w. unfold bind. destruct (Hm w) as (t & Et & Ct).
  destruct (m w) as [[a | e] w1]; simpl in *.
  - exists t. rewrite Hf. auto.
  - exists t. auto.
Qed.

Lemma styleAndZoom_requests
  (config : Config) (net : Net) (host : Host) (zipcode : string) (w : World) :
  exists t,
    trace (snd (styleAndZoom config net host zipcode w)) = (trace w ++ t)%list /\
    (primary_requests t = 2 \/
     (primary_requests t = 1 /\ exists g, geoJSON_accepts host g = false)).
Proof.
  unfold styleAndZoom, try_catch.
  set (styling := if includes config zipcode
                  then plotZipcodeWithStyle net host zipcode "#e74c3c" true ;;;
                       set_result Polluted
                  else plotZipcodeWithStyle net host zipcode "#27ae60" false ;;;
                       set_result Safe).
  assert (Hreq : requests 1 styling).
  { unfold styling. destruct (includes config zipcode);
      (apply requests_bind_silent;
       [apply plotZipcodeWithStyle_requests
       | intros _; apply set_result_silent]). }
  assert (Hthrow : forall e, fst (styling w) = Throw e ->
                             exists g, geoJSON_accepts host g = false).
  { intro e. unfold styling.
    destruct (includes config zipcode); unfold bind at 1;
      match goal with
      | |- context [plotZipcodeWithStyle net host zipcode ?c ?b w] =>
          pose proof (plotZipcodeWithStyle_throws net host zipcode c b w) as Hp;
          destruct (plotZipcodeWithStyle net host zipcode c b w)
            as [[u | e'] w'];
          [discriminate | intros _; apply (Hp e'); reflexivity]
      end. }
  unfold bind at 1. destruct (Hreq w) as (t & Et & Ct).
  destruct (styling w) as [[[] | e] w1]; cbn [fst snd] in *.
  - destruct (zoomToZipcode_requests net zipcode w1) as (u & Eu & Cu).
    destruct (zoomToZipcode net zipcode w1) as [[[] | e] w2]; cbn [snd] in *.
    + exists (t ++ u)%list. rewrite Eu, Et, app_assoc, primary_requests_app.
      split; [reflexivity | left; lia].
    + exists (t ++ u ++ [EConsoleError "Search error:"])%list.
      simpl. rewrite Eu, Et, <- !app_assoc, !primary_requests_app, Ct, Cu.
      split; [reflexivity | left; reflexivity].
  - exists (t ++ [EConsoleError "Search error:"])%list.
    simpl. rewrite Et, <- app_assoc, primary_requests_app, Ct.
    split; [reflexivity | right]. split; [reflexivity |].
    apply (Hthrow e). reflexivity.
Qed.

(** X16: a search whose stripped value passes validation resolves the
    code twice: its events hold two requests to the primary service, one
    for the styling and one for the viewport, whatever the first one
    returned; only when the map library throws on the feature during the
    styling is the second resolution skipped. *)
Theorem valid_search_resolves_twice
  (config : Config) (net : Net) (host : Host) (input : string) (w : World) :
  resultDiv w <> None ->
  invalid_zipcode (trimZipcode (trim input)) = false ->
  primary_requests (new_events (searchZipcode config net host input) w) = 2 \/
  (primary_requests (new_events (searchZipcode config net host input) w) = 1 /\
   exists g, geoJSON_accepts host g = false).
Proof.
  intros Hp Hv. unfold new_events, run.
  rewrite searchZipcode_valid by assumption.
  destruct (styleAndZoom_requests config net host (trimZipcode (trim input))
              (search_started w)) as (t & Et & Ct).
  assert (Ht0 : trace (search_started w) = trace w).
  { unfold search_started, bind, clearSearch, bind, modify, set_result, modify.
    simpl. destruct (resultDiv w); reflexivity. }
  rewrite Et, Ht0, skipn_app, Nat.sub_diag, skipn_all. exact Ct.
Qed.

Lemma valid_search_resolves_twice_witness :
  primary_requests
    (new_events (searchZipcode sample_config net_down lenient_host "1951")
                fresh_world) = 2 \/
  (primary_requests
     (new_events (searchZipcode sample_config net_down lenient_host "1951")
                 fresh_world) = 1 /\
   exists g, geoJSON_accepts lenient_host g = false).
Proof.
  apply (valid_search_resolves_twice
           sample_config net_down lenient_host "1951" fresh_world).
  - discriminate.
  - reflexivity.
Defined.

(* ================================================================== *)
(** * Further properties: clearing and start-up *)

(** X17: clearing the search is idempotent and touches the search side
    only: it never throws, it empties the search overlay group, it blanks
    the result element when the page has one, it leaves the bulk overlay
    group, the status element and the trace alone, and clearing a second
    time changes nothing. *)
Theorem clearSearch_is_idempotent (w : World) :
  result clearSearch w = Ok tt /\
  searchLayerGroup (run clearSearch w) = [] /\
  (resultDiv w <> None -> resultDiv (run clearSearch w) = Some Blank) /\
  (resultDiv w = None -> resultDiv (run clearSearch w) = None) /\
  layerGroup (run clearSearch w) = layerGroup w /\
  statusDiv (run clearSearch w) = statusDiv w /\
  trace (run clearSearch w) = trace w /\
  run clearSearch (run clearSearch w) = run clearSearch w.
Proof.
  unfold result, run, clearSearch, bind, modify. simpl.
  destruct (resultDiv w) as [x |] eqn:E; simpl; rewrite ?E; simpl;
    repeat split; auto; try discriminate.
  intro C. now contradiction C.
Qed.

(** X18: the two overlay groups are cleared independently: [clearAll]
    empties the bulk group and leaves the search group, the text elements
    and the trace alone, and clearing the bulk group and clearing the
    search commute. *)
Theorem clearAll_is_independent_of_clearSearch (w : World) :
  layerGroup (run clearAll w) = [] /\
  searchLayerGroup (run clearAll w) = searchLayerGroup w /\
  statusDiv (run clearAll w) = statusDiv w /\
  resultDiv (run clearAll w) = resultDiv w /\
  trace (run clearAll w) = trace w /\
  run clearAll (run clearSearch w) = run clearSearch (run clearAll w).
Proof.
  unfold run, clearAll, clearSearch, bind, modify. simpl.
  destruct (resultDiv w); repeat split.
Qed.

(** X19: when the configuration cannot be loaded, because the request
    fails or the body does not parse, start-up ends quietly: nothing is
    thrown, the only event is the console line of the [catch], no
    geocoding request is made, the overlay groups are untouched, and a
    status element, if the page has one, shows the load error. *)
Theorem initialize_reports_load_failure
  (reply : ConfigReply) (net : Net) (host : Host) (w : World) :
  reply = ConfigNetFail \/ reply = ConfigBadJson ->
  result (initialize reply net host) w = Ok tt /\
  new_events (initialize reply net host) w
    = [EConsoleError "Error initializing mapper:"] /\
  (statusDiv w <> None ->
   statusDiv (run (initialize reply net host) w)
     = Some "Error loading configuration") /\
  layerGroup (run (initialize reply net host) w) = layerGroup w /\
  searchLayerGroup (run (initialize reply net host) w) = searchLayerGroup w.
Proof.
  intros [-> | ->];
    unfold result, new_events, run, initialize, try_catch, bind, load_config,
      throw, console_error, emit, set_status, modify; simpl;
    (destruct (statusDiv w) eqn:E; simpl;
     rewrite skipn_app, Nat.sub_diag, skipn_all; simpl;
     repeat split; auto; intro C; now contradiction C).
Qed.

Lemma initialize_reports_load_failure_witness :
  result (initialize ConfigNetFail net_down lenient_host) fresh_world = Ok tt /\
  new_events (initialize ConfigNetFail net_down lenient_host) fresh_world
    = [EConsoleError "Error initializing mapper:"] /\
  (statusDiv fresh_world <> None ->
   statusDiv (run (initialize ConfigNetFail net_down lenient_host) fresh_world)
     = Some "Error loading configuration") /\
  layerGroup (run (initialize ConfigNetFail net_down lenient_host) fresh_world)
    = layerGroup fresh_world /\
  searchLayerGroup (run (initialize ConfigNetFail net_down lenient_host)
                        fresh_world) = searchLayerGroup fresh_world.
Proof.
  apply (initialize_reports_load_failure
           ConfigNetFail net_down lenient_host fresh_world).
  left. reflexivity.
Defined.



(* ================================================================== *)
(** * Further properties: what the batch run draws *)

Lemma plot_one_layers
  (config : Config) (net : Net) (host : Host) (zipcode : string)
  (s f : nat) (w : World) :
  exists (c : nat * nat) (w' : World) (added : list Layer),
    plot_one config net host zipcode s f w = (Ok c, w') /\
    layerGroup w' = (layerGroup w ++ added)%list /\
    Forall (bulk_layer_for config [zipcode]) added.
Proof.
  unfold plot_one, try_catch, bind, set_status, modify.
  fold (status_shown ("Loading: " ++ zipcode ++ "...") w).
  set (w1 := status_shown ("Loading: " ++ zipcode ++ "...") w).
  destruct (status_shown_frame ("Loading: " ++ zipcode ++ "...") w)
    as (_ & Hl & _ & _). fold w1 in Hl.
  destruct (fetchZipcodeGeometry_cases net zipcode w1) as (r & t & E & Hwf & _).
  rewrite E.
  set (w2 := logs (EFetch PDOK zipcode :: t) w1).
  destruct (logs_frame (EFetch PDOK zipcode :: t) w1) as (Hl2 & _ & _ & _).
  fold w2 in Hl2.
  destruct r as [g |].
  - unfold plotZipcode. destruct (geoJSON_accepts host g).
    + eexists. eexists. exists [bulk_layer config g].
      split; [reflexivity |]. simpl. rewrite Hl2, Hl.
      split; [reflexivity |]. constructor; [| constructor].
      destruct (Hwf g eq_refl) as (H1 & H2 & H3).
      exists g. rewrite H2. repeat split; auto.
      * now left.
      * simpl. now rewrite H2.
    + eexists. eexists. exists []. split; [reflexivity |]. simpl.
      rewrite Hl2, Hl, app_nil_r. split; [reflexivity | constructor].
  - eexists. eexists. exists []. split; [reflexivity |]. simpl.
    rewrite Hl2, Hl, app_nil_r. split; [reflexivity | constructor].
Qed.

Lemma bulk_layer_for_incl (config : Config) (codes codes' : list string)
  (l : Layer) :
  incl codes codes' -> bulk_layer_for config codes l ->
  bulk_layer_for config codes' l.
Proof.
  intros Hi (g & Hin & H). exists g. split; [now apply Hi | exact H].
Qed.

Lemma plot_loop_layers
  (config : Config) (net : Net) (host : Host) (codes : list string) :
  forall (s f : nat) (w : World),
  exists (c : nat * nat) (w' : World) (added : list Layer),
    plot_loop config net host codes s f w = (Ok c, w') /\
    layerGroup w' = (layerGroup w ++ added)%list /\
    Forall (bulk_layer_for config codes) added.
Proof.
  induction codes as [| zipcode rest IH]; intros s f w.
  - exists (s, f), w, []. simpl. rewrite app_nil_r. repeat split. constructor.
  - destruct (plot_one_layers config net host zipcode s f w)
      as (c1 & w1 & a1 & E1 & L1 & F1).
    destruct (IH (fst c1) (snd c1) w1) as (c2 & w2 & a2 & E2 & L2 & F2).
    exists c2, w2, (a1 ++ a2)%list.
    split; [simpl; unfold bind; rewrite E1; exact E2 |].
    split; [rewrite L2, L1, app_assoc; reflexivity |].
    apply Forall_app. split.
    + eapply Forall_impl; [| exact F1]. intro l.
      apply bulk_layer_for_incl. intros z [<- | []]. now left.
    + eapply Forall_impl; [| exact F2]. intro l.
      apply bulk_layer_for_incl. intros z Hz. now right.
Qed.

(** X21: every layer a batch run adds to the bulk overlay group is drawn
    for one of the configured codes: it holds a complete feature for that
    code, carries the fill and stroke of the configuration, and its popup
    reads [Postcode: <code>]. *)
Theorem plotAllZipcodes_draws_configured_codes
  (config : Config) (net : Net) (host : Host) (w : World) :
  exists added : list Layer,
    layerGroup (run (plotAllZipcodes config net host) w)
      = (layerGroup w ++ added)%list /\
    Forall (bulk_layer_for config (zipcodes config)) added.
Proof.
  unfold run, plotAllZipcodes, bind, set_status, modify, get.
  fold (status_shown "Loading zip codes..." w).
  destruct (status_shown_frame "Loading zip codes..." w) as (_ & Hl & _ & _).
  destruct (plot_loop_layers config net host (zipcodes config) 0 0
              (status_shown "Loading zip codes..." w))
    as (c & w1 & added & E & L & F).
  rewrite E. rewrite Hl in L.
  set (text := loaded_text _ _). fold (status_shown text w1).
  destruct (status_shown_frame text w1) as (_ & Hl1 & _ & _).
  exists added. split; [| exact F].
  destruct (0 <? _)%nat; simpl; rewrite Hl1, L; reflexivity.
Qed.







(* ================================================================== *)
(** * Further properties: codes typed with their letters *)

Lemma in_range_spec (lo hi : nat) (c : ascii) :
  in_range lo hi c = true <-> lo <= nat_of_ascii c <= hi.
Proof.
  unfold in_range. cbv zeta. rewrite andb_true_iff, !Nat.leb_le. reflexivity.
Qed.

Lemma in_range_false (lo hi : nat) (c : ascii) :
  nat_of_ascii c < lo \/ hi < nat_of_ascii c -> in_range lo hi c = false.
Proof.
  intro H. destruct (in_range lo hi c) eqn:E; [| reflexivity].
  apply in_range_spec in E. lia.
Qed.

Lemma digit_not_letter_nor_space (c : ascii) :
  is_digit c = true -> is_letter c = false /\ is_space c = false.
Proof.
  unfold is_digit, is_letter, is_space. intro H. apply in_range_spec in H.
  rewrite !in_range_false by lia.
  split; [reflexivity |].
  destruct (Nat.eqb_spec (nat_of_ascii c) 32); [lia |].
  destruct (Nat.eqb_spec (nat_of_ascii c) 160); [lia | reflexivity].
Qed.

Lemma letter_not_space (c : ascii) : is_letter c = true -> is_space c = false.
Proof.
  unfold is_letter, is_space. intro H. apply orb_true_iff in H.
  rewrite !in_range_spec in H.
  rewrite in_range_false by lia.
  destruct (Nat.eqb_spec (nat_of_ascii c) 32); [lia |].
  destruct (Nat.eqb_spec (nat_of_ascii c) 160); [lia | reflexivity].
Qed.

Lemma drop_while_none (l : list ascii) :
  forallb (fun c => negb (is_space c)) l = true -> drop_while is_space l = l.
Proof.
  destruct l as [| c l]; simpl; [reflexivity |]. intro H.
  apply andb_prop in H. destruct H as [Hc _].
  apply negb_true_iff in Hc. now rewrite Hc.
Qed.

Lemma forallb_rev {A} (p : A -> bool) (l : list A) :
  forallb p (rev l) = forallb p l.
Proof.
  induction l as [| a l IH]; simpl; [reflexivity |].
  rewrite forallb_app, IH. simpl. rewrite andb_true_r. apply andb_comm.
Qed.

(** A string without white space is left alone by [trim]. *)
Lemma trim_none (s : string) :
  forallb (fun c => negb (is_space c)) (chars s) = true -> trim s = s.
Proof.
  intro H. unfold trim. rewrite (drop_while_none _ H).
  rewrite drop_while_none by (now rewrite forallb_rev).
  rewrite rev_involutive. apply str_chars.
Qed.

Lemma filter_all (l : list ascii) :
  forallb is_digit l = true ->
  filter (fun c => negb (is_letter c)) l = l.
Proof.
  intro H. apply forallb_filter_id.
  rewrite forallb_forall in *. intros c Hc.
  destruct (digit_not_letter_nor_space c (H c Hc)) as [-> _]. reflexivity.
Qed.

Lemma filter_none (l : list ascii) :
  forallb is_letter l = true ->
  filter (fun c => negb (is_letter c)) l = [].
Proof.
  induction l as [| c l IH]; simpl; [reflexivity |]. intro H.
  apply andb_prop in H. destruct H as [Hc Hl]. rewrite Hc. simpl. now apply IH.
Qed.

(** X23: a code typed with letters around its digits, such as "3572RB",
    is read as its digits: for a string of digits with only letters
    before and after it, the search strips the input to exactly the
    digits, and validation passes exactly when there are four of them. *)
Theorem letters_around_digits_are_dropped (before digits after : string) :
  all_letters before = true -> all_digits digits = true ->
  all_letters after = true ->
  trimZipcode (trim (before ++ digits ++ after)) = digits /\
  (invalid_zipcode (trimZipcode (trim (before ++ digits ++ after))) = false
   <-> String.length digits = 4).
Proof.
  unfold all_letters, all_digits. intros Hb Hd Ha.
  assert (E : trimZipcode (trim (before ++ digits ++ after)) = digits).
  { rewrite trim_none.
    - unfold trimZipcode, remove_letters. rewrite !chars_app, !filter_app.
      rewrite (filter_none _ Hb), (filter_none _ Ha), (filter_all _ Hd).
      rewrite app_nil_r. apply str_chars.
    - rewrite !chars_app, !forallb_app.
      rewrite forallb_forall in Hb, Hd, Ha.
      rewrite !andb_true_iff, !forallb_forall.
      repeat split; intros c Hc; apply negb_true_iff.
      + apply letter_not_space. auto.
      + apply (digit_not_letter_nor_space c). auto.
      + apply letter_not_space. auto. }
  split; [exact E |]. rewrite E.
  split.
  - intro H. destruct (invalid_zipcode_spec digits) as [_ Hs].
    destruct (Nat.eq_dec (String.length digits) 4) as [| Hn]; [assumption |].
    rewrite Hs in H by (right; exact Hn). discriminate.
  - intro H. unfold invalid_zipcode. rewrite H.
    destruct digits; [discriminate | reflexivity].
Qed.

Lemma letters_around_digits_are_dropped_witness :
  trimZipcode (trim ("" ++ "3572" ++ "RB")) = "3572" /\
  (invalid_zipcode (trimZipcode (trim ("" ++ "3572" ++ "RB"))) = false
   <-> String.length "3572" = 4).
Proof.
  apply (letters_around_digits_are_dropped "" "3572" "RB"); reflexivity.
Defined.
